(** * Bybit spread monitor: signal state machine and subscription planner

    Shallow embedding of [src/index.js] (the cache-fallback, fire-and-forget
    variant, lines 1-291): [calcSpread], [processTickerData],
    [subscribeToSymbols] and the shard loop of [initializeWebSockets].

    Modelling conventions.
    - A JavaScript number is [NaN] or a finite value [Num q] with [q] an
      exact rational.  Rounding of IEEE doubles, signed zero and the two
      infinities are outside the model; [parseFloat] of a missing or
      unparsable field is [NaN].  [Wide.num] adds the infinities where a
      statement depends on them.
    - [Date.now()] is read three times on the entry path (lines 108, 114,
      115); a tick is processed under a [Clock] holding the three readings.
    - [sendTelegram (formatEntry ...)] and [sendTelegram (formatExit ...)]
      are recorded as [Event]s carrying the arguments of the formatter.
    - Array lengths and the integer settings [MAX_WS_CONNECTIONS] and
      [BATCH_SIZE] are naturals; [Math.ceil (a / b)] is exact for them. *)

From Stdlib Require Import QArith Qabs Lqa ZArith Lia.
From stdpp Require Import gmap strings list fin_maps.

Local Open Scope Q_scope.

(** ** JavaScript numbers *)

Module JS.

Inductive num : Type :=
  | NaN
  | Num (q : Q).

(** [isNaN x] *)
Definition isNaN (x : num) : bool :=
  match x with NaN => true | Num _ => false end.

(** [!x] on a number: true for [NaN] and for zero. *)
Definition not (x : num) : bool :=
  match x with NaN => true | Num q => Qeq_bool q 0 end.

(** [x === y] on numbers: [NaN] equals nothing. *)
Definition seq (x y : num) : bool :=
  match x, y with Num a, Num b => Qeq_bool a b | _, _ => false end.

(** [x <= y], [x < y], [x >= y], [x > y]: false as soon as one side is [NaN]. *)
Definition le (x y : num) : bool :=
  match x, y with Num a, Num b => Qle_bool a b | _, _ => false end.

Definition lt (x y : num) : bool :=
  match x, y with Num a, Num b => negb (Qle_bool b a) | _, _ => false end.

Definition ge (x y : num) : bool := le y x.

Definition gt (x y : num) : bool := lt y x.

(** [x - y], [x * y], [x / y].  A division by zero gives an infinity or
    [NaN] in JavaScript; infinities are not modelled and [calcSpread]
    never divides by zero, the model answers [NaN] there. *)
Definition sub (x y : num) : num :=
  match x, y with Num a, Num b => Num (a - b) | _, _ => NaN end.

Definition mul (x y : num) : num :=
  match x, y with Num a, Num b => Num (a * b) | _, _ => NaN end.

Definition div (x y : num) : num :=
  match x, y with
  | Num a, Num b => if Qeq_bool b 0 then NaN else Num (a / b)
  | _, _ => NaN
  end.

(** [Math.abs x] *)
Definition abs (x : num) : num :=
  match x with NaN => NaN | Num q => Num (Qabs q) end.

(** Equality of the values denoted (rationals up to [==]). *)
Definition same (x y : num) : Prop :=
  match x, y with
  | NaN, NaN => True
  | Num a, Num b => a == b
  | _, _ => False
  end.

End JS.

(** ** Spread engine (lines 57-60) *)

Definition calcSpread (lastPrice indexPrice : JS.num) : JS.num :=
  if JS.not lastPrice || JS.not indexPrice || JS.seq indexPrice (JS.Num 0)
  then JS.Num 0
  else JS.mul (JS.div (JS.sub lastPrice indexPrice) indexPrice) (JS.Num 100).

(** ** Signal state (lines 39-46) *)

Inductive Direction : Type := LONG | SHORT.

(** Value of [state.activeSignals]: [{ direction, entryTime, entrySpread }]. *)
Record Signal : Type := {
  direction : Direction;
  entryTime : Z;
  entrySpread : JS.num
}.

Record State : Type := {
  activeSignals : gmap string Signal;
  lastSignalTime : gmap string Z;
  lastIndexPrice : gmap string JS.num
}.

(** The settings of [CONFIG] read by the modelled functions. *)
Record Config : Type := {
  SPREAD_ENTRY_THRESHOLD : JS.num;
  SPREAD_EXIT_THRESHOLD : JS.num;
  SIGNAL_COOLDOWN_MS : JS.num;
  MAX_WS_CONNECTIONS : nat;
  BATCH_SIZE : nat
}.

(** The payload [data] of a ticker frame after [parseFloat]: [lastPrice]
    and [indexPrice] are [NaN] when the field is missing or not a number.
    A missing [symbol] is the empty string: both are falsy, and the symbol
    of a rejected tick is only used as the key of the cache write. *)
Record Ticker : Type := {
  symbol : string;
  lastPrice : JS.num;
  indexPrice : JS.num
}.

(** The readings of [Date.now()] at lines 108, 114 and 115. *)
Record Clock : Type := {
  checkedAt : Z;
  enteredAt : Z;
  stampedAt : Z
}.

(** Arguments of [formatEntry] and [formatExit] handed to [sendTelegram]. *)
Inductive Event : Type :=
  | Entry (sym : string) (dir : Direction) (last index spread : JS.num)
  | Exit (sym : string) (dir : Direction)
         (last index spread entry : JS.num).

(** ** Tick processing (lines 88-130) *)

(** Line 94: [!isNaN(indexPrice) && indexPrice > 0]. *)
Definition validIndex (parsed : JS.num) : bool :=
  negb (JS.isNaN parsed) && JS.gt parsed (JS.Num 0).

(** Lines 93-98: the cache after the tick and the reference price used. *)
Definition resolveIndexPrice (sym : string) (parsed : JS.num)
    (cache : gmap string JS.num) : gmap string JS.num * JS.num :=
  if validIndex parsed
  then (<[sym := parsed]> cache, parsed)
  else (cache, default JS.NaN (cache !! sym)).

(** Line 104. *)
Definition directionOf (last index : JS.num) : Direction :=
  if JS.lt last index then LONG else SHORT.

(** Lines 107-108: [lastSent] is [get(symbol) || 0]. *)
Definition lastSentOf (sym : string) (times : gmap string Z) : Z :=
  default 0%Z (times !! sym).

Definition cooldownOk (cfg : Config) (now lastSent : Z) : bool :=
  JS.ge (JS.Num (inject_Z (now - lastSent))) (SIGNAL_COOLDOWN_MS cfg).

Definition hasSignal (sym : string) (signals : gmap string Signal) : bool :=
  match signals !! sym with Some _ => true | None => false end.

(** Line 100: [!symbol || isNaN(lastPrice) || isNaN(indexPrice)]. *)
Definition rejected (sym : string) (last index : JS.num) : bool :=
  String.eqb sym "" || JS.isNaN last || JS.isNaN index.

(** The reference price a tick is processed with (lines 93-98). *)
Definition resolved (data : Ticker) (st : State) : JS.num :=
  snd (resolveIndexPrice (symbol data) (indexPrice data) (lastIndexPrice st)).

(** The cache after the tick (lines 93-98). *)
Definition cached (data : Ticker) (st : State) : gmap string JS.num :=
  fst (resolveIndexPrice (symbol data) (indexPrice data) (lastIndexPrice st)).

(** The state a tick leaves when it moves no signal: only the cache may
    have been written. *)
Definition withCache (data : Ticker) (st : State) : State :=
  {| activeSignals := activeSignals st;
     lastSignalTime := lastSignalTime st;
     lastIndexPrice := cached data st |}.

Definition processTickerData (cfg : Config) (clk : Clock) (data : Ticker)
    (st : State) : State * list Event :=
  let sym := symbol data in
  let last := lastPrice data in
  let cache := cached data st in
  let index := resolved data st in
  let st1 := withCache data st in
  if rejected sym last index then (st1, [])
  else
    let spread := calcSpread last index in
    let absSpread := JS.abs spread in
    let dir := directionOf last index in
    let lastSent := lastSentOf sym (lastSignalTime st) in
    if negb (hasSignal sym (activeSignals st))
       && JS.ge absSpread (SPREAD_ENTRY_THRESHOLD cfg)
       && cooldownOk cfg (checkedAt clk) lastSent
    then
      ({| activeSignals :=
            <[sym := {| direction := dir; entryTime := enteredAt clk;
                        entrySpread := spread |}]> (activeSignals st);
          lastSignalTime := <[sym := stampedAt clk]> (lastSignalTime st);
          lastIndexPrice := cache |},
       [Entry sym dir last index spread])
    else
      match activeSignals st !! sym with
      | Some sig =>
          if JS.le absSpread (SPREAD_EXIT_THRESHOLD cfg)
          then
            ({| activeSignals := delete sym (activeSignals st);
                lastSignalTime := lastSignalTime st;
                lastIndexPrice := cache |},
             [Exit sym (direction sig) last index spread (entrySpread sig)])
          else (st1, [])
      | None => (st1, [])
      end.

(** Ticks handled one after the other, as the [message] handler does. *)
Fixpoint processAll (cfg : Config) (ticks : list (Clock * Ticker))
    (st : State) : State * list Event :=
  match ticks with
  | [] => (st, [])
  | (clk, data) :: rest =>
      let '(st1, out1) := processTickerData cfg clk data st in
      let '(st2, out2) := processAll cfg rest st1 in
      (st2, out1 ++ out2)
  end.

Definition isEntryFor (sym : string) (e : Event) : bool :=
  match e with
  | Entry s _ _ _ _ => String.eqb s sym
  | Exit _ _ _ _ _ _ => false
  end.

Definition entriesFor (sym : string) (out : list Event) : nat :=
  length (List.filter (isEntryFor sym) out).

(** ** Subscription planning (lines 144-160 and 206-225) *)

(** [Math.ceil(a / b)] for a length [a] and a setting [b >= 1].  For
    [b = 0] the quotient of the source is [Infinity] or [NaN] and this
    definition is not its ceiling: statements on the plan assume settings
    of at least 1. *)
Definition ceilDiv (a b : nat) : nat := ((a + (b - 1)) / b)%nat.

(** [xs.slice(from, to)] for indices [0 <= from], [0 <= to]. *)
Definition slice {A : Type} (xs : list A) (from to : nat) : list A :=
  take (to - from) (drop from xs).

(** Lines 145-148.  The loop [for (i = 0; i < symbols.length; i += B)]
    runs at most [symbols.length] times when [B >= 1]; [fuel] counts the
    iterations left. *)
Fixpoint batchesFrom {A : Type} (fuel B : nat) (symbols : list A) (i : nat)
    : list (list A) :=
  match fuel with
  | O => []
  | S fuel' =>
      if (i <? length symbols)%nat
      then slice symbols i (i + B) :: batchesFrom fuel' B symbols (i + B)
      else []
  end.

Definition batchesOf {A : Type} (cfg : Config) (symbols : list A)
    : list (list A) :=
  batchesFrom (length symbols) (BATCH_SIZE cfg) symbols 0.

(** Lines 152-154: the [args] of the subscribe frames sent, in order. *)
Definition subscribeToSymbols (cfg : Config) (symbols : list string)
    : list (list string) :=
  map (map (fun s => String.append "tickers." s)) (batchesOf cfg symbols).

(** Line 208. *)
Definition symbolsPerConnection {A : Type} (cfg : Config) (symbols : list A)
    : nat :=
  ceilDiv (length symbols) (MAX_WS_CONNECTIONS cfg).

(** Lines 209-212. *)
Definition actualConnections {A : Type} (cfg : Config) (symbols : list A)
    : nat :=
  Nat.min (MAX_WS_CONNECTIONS cfg) (ceilDiv (length symbols) (BATCH_SIZE cfg)).

(** Lines 217-219: the symbols handed to connection [i]. *)
Definition shardOf {A : Type} (cfg : Config) (symbols : list A) (i : nat)
    : list A :=
  let per := symbolsPerConnection cfg symbols in
  slice symbols (i * per) (Nat.min ((i + 1) * per) (length symbols)).

(** Lines 216-222: the shards given to [createWebSocketConnection]. *)
Definition initializeWebSockets {A : Type} (cfg : Config) (symbols : list A)
    : list (list A) :=
  map (shardOf cfg symbols) (seq 0 (actualConnections cfg symbols)).

(** Every wire-level batch of the plan: the frames of each connection. *)
Definition wireBatches (cfg : Config) (symbols : list string)
    : list (list string) :=
  concat (map (subscribeToSymbols cfg) (initializeWebSockets cfg symbols)).

(** [CONFIG] with every setting at its default (lines 13-23). *)
Definition defaultConfig : Config :=
  {| SPREAD_ENTRY_THRESHOLD := JS.Num (7 # 10);
     SPREAD_EXIT_THRESHOLD := JS.Num (5 # 10);
     SIGNAL_COOLDOWN_MS := JS.Num 60000;
     MAX_WS_CONNECTIONS := 5;
     BATCH_SIZE := 10 |}.

(** A clock whose three readings agree, and a ticker payload. *)
Definition atTime (t : Z) : Clock :=
  {| checkedAt := t; enteredAt := t; stampedAt := t |}.

Definition tick (sym : string) (last index : JS.num) : Ticker :=
  {| symbol := sym; lastPrice := last; indexPrice := index |}.

(** A state in which [sym] has an active signal and nothing else is known. *)
Definition activeState (sym : string) (sig : Signal) : State :=
  {| activeSignals := {[ sym := sig ]};
     lastSignalTime := ∅;
     lastIndexPrice := ∅ |}.

(** Two small universes, and [CONFIG] with [BATCH_SIZE] set to 2. *)
Definition universe8 : list string :=
  ["BTCUSDT"; "ETHUSDT"; "SOLUSDT"; "XRPUSDT";
   "DOGEUSDT"; "ADAUSDT"; "BNBUSDT"; "LTCUSDT"].

Definition universe11 : list string :=
  universe8 ++ ["AVAXUSDT"; "LINKUSDT"; "DOTUSDT"].

Definition smallBatchConfig : Config :=
  {| SPREAD_ENTRY_THRESHOLD := JS.Num (7 # 10);
     SPREAD_EXIT_THRESHOLD := JS.Num (5 # 10);
     SIGNAL_COOLDOWN_MS := JS.Num 60000;
     MAX_WS_CONNECTIONS := 5;
     BATCH_SIZE := 2 |}.

(** A number that [!x] treats as absent: [NaN] or zero. *)
Definition zeroOrMissing (x : JS.num) : Prop :=
  match x with JS.NaN => True | JS.Num q => q == 0 end.

Definition emptyState : State :=
  {| activeSignals := ∅; lastSignalTime := ∅; lastIndexPrice := ∅ |}.

(** ** Frames, universe discovery and start-up *)

(** Line 153: the topic subscribed for a symbol. *)
Definition topicOf (s : string) : string := String.append "tickers." s.

(** An inbound message: text on which [JSON.parse] throws, or a parsed
    object with its [topic] and [data] fields ([None] when absent). *)
Inductive Frame : Type :=
  | Unparsable
  | Parsed (topic : option string) (data : option Ticker).

(** Lines 133-142. *)
Definition handleWebSocketMessage (cfg : Config) (clk : Clock) (message : Frame)
    (st : State) : State * list Event :=
  match message with
  | Parsed (Some topic) (Some data) =>
      if String.prefix "tickers." topic
      then processTickerData cfg clk data st
      else (st, [])
  | _ => (st, [])
  end.

(** An entry of [result.list] and the body of the listing response. *)
Record Instrument : Type := {
  instStatus : string;
  quoteCoin : string;
  instSymbol : string
}.

Record Listing : Type := {
  retCode : Z;
  retMsg : string;
  instruments : list Instrument
}.

(** Line 237: [s.status === 'Trading' && s.quoteCoin === 'USDT']. *)
Definition isActiveUsdt (s : Instrument) : bool :=
  String.eqb (instStatus s) "Trading" && String.eqb (quoteCoin s) "USDT".

(** Lines 228-242, on the body of the response: the error thrown or the
    symbols returned. *)
Definition fetchActiveSymbols (res : Listing) : string + list string :=
  if negb (retCode res =? 0)%Z
  then inl (String.append "API Error: " (retMsg res))
  else inr (map instSymbol (List.filter isActiveUsdt (instruments res))).

(** Lines 256-257 of [main]: the subscribe frames of every connection when
    each of them opens, or the error that ends the process. *)
Definition main (cfg : Config) (res : Listing)
    : string + list (list (list string)) :=
  match fetchActiveSymbols res with
  | inl err => inl err
  | inr symbols =>
      inr (map (subscribeToSymbols cfg) (initializeWebSockets cfg symbols))
  end.

(** ** Views of a run used by the invariants *)

Definition isExitFor (sym : string) (e : Event) : bool :=
  match e with
  | Entry _ _ _ _ _ => false
  | Exit s _ _ _ _ _ => String.eqb s sym
  end.

Definition exitsFor (sym : string) (out : list Event) : nat :=
  length (List.filter (isExitFor sym) out).

Definition activeCount (sym : string) (st : State) : nat :=
  if hasSignal sym (activeSignals st) then 1%nat else 0%nat.

Definition eventSymbol (e : Event) : string :=
  match e with Entry s _ _ _ _ => s | Exit s _ _ _ _ _ => s end.

Definition eventIndex (e : Event) : JS.num :=
  match e with Entry _ _ _ i _ => i | Exit _ _ _ i _ _ => i end.

(** Every cached reference price passed the test of line 94. *)
Definition cacheValid (st : State) : Prop :=
  forall (s : string) (x : JS.num),
    lastIndexPrice st !! s = Some x -> validIndex x = true.

(** Every active signal belongs to a named instrument that has a cooldown
    record, and its entry spread met the entry threshold. *)
Definition signalsSound (cfg : Config) (st : State) : Prop :=
  forall (s : string) (sig : Signal),
    activeSignals st !! s = Some sig ->
    s <> "" /\
    is_Some (lastSignalTime st !! s) /\
    JS.ge (JS.abs (entrySpread sig)) (SPREAD_ENTRY_THRESHOLD cfg) = true.

(** ** The blocking variant (lines 292-687)

    The second program of the file: no reference-price cache, no cooldown,
    and the notification is awaited.  Its [calculateSpread] and
    [getDirection] are [calcSpread] and [directionOf]. *)

Module Blocking.

(** Value of [state.activeSignals]; the fields [lastPrice] and [indexPrice]
    are named [signalLastPrice] and [signalIndexPrice] here. *)
Record Signal : Type := {
  direction : Direction;
  entryTime : Z;
  signalLastPrice : JS.num;
  signalIndexPrice : JS.num;
  spread : JS.num
}.

Record State : Type := {
  activeSignals : gmap string Signal;
  prices : gmap string (JS.num * JS.num)
}.

(** Arguments of [formatEntryMessage] and [formatExitMessage]. *)
Inductive Event : Type :=
  | Entry (sym : string) (dir : Direction) (last index spread : JS.num)
  | Exit (sym : string) (dir : Direction) (last index spread : JS.num).

(** Lines 378-381. *)
Definition calculateSpread (lastPrice indexPrice : JS.num) : JS.num :=
  if JS.not lastPrice || JS.not indexPrice || JS.seq indexPrice (JS.Num 0)
  then JS.Num 0
  else JS.mul (JS.div (JS.sub lastPrice indexPrice) indexPrice) (JS.Num 100).

(** Lines 386-388. *)
Definition getDirection (lastPrice indexPrice : JS.num) : Direction :=
  if JS.lt lastPrice indexPrice then LONG else SHORT.

(** Lines 419-469; [now] is the instant rendered by [toISOString]. *)
Definition processTickerData (cfg : Config) (now : Z) (data : Ticker)
    (st : State) : State * list Event :=
  let sym := symbol data in
  let last := lastPrice data in
  let index := indexPrice data in
  if JS.not last || JS.not index then (st, [])
  else
    let seen := <[sym := (last, index)]> (prices st) in
    let spr := calculateSpread last index in
    let absSpread := JS.abs spr in
    let dir := getDirection last index in
    match activeSignals st !! sym with
    | None =>
        if JS.ge absSpread (SPREAD_ENTRY_THRESHOLD cfg)
        then
          ({| activeSignals :=
                <[sym := {| direction := dir; entryTime := now;
                            signalLastPrice := last; signalIndexPrice := index;
                            spread := spr |}]> (activeSignals st);
              prices := seen |},
           [Entry sym dir last index spr])
        else ({| activeSignals := activeSignals st; prices := seen |}, [])
    | Some sig =>
        if JS.le absSpread (SPREAD_EXIT_THRESHOLD cfg)
        then
          ({| activeSignals := delete sym (activeSignals st); prices := seen |},
           [Exit sym (direction sig) last index spr])
        else ({| activeSignals := activeSignals st; prices := seen |}, [])
    end.

End Blocking.

(** What the blocking variant shows of an event: it has no entry spread. *)
Definition toBlocking (e : Event) : Blocking.Event :=
  match e with
  | Entry s d l i sp => Blocking.Entry s d l i sp
  | Exit s d l i sp _ => Blocking.Exit s d l i sp
  end.

(** The two variants hold signals for the same instruments, with the same
    directions. *)
Definition sameSignals (st : State) (old : Blocking.State) : Prop :=
  forall s : string,
    direction <$> (activeSignals st !! s) =
    Blocking.direction <$> (Blocking.activeSignals old !! s).

(** ** Numbers with infinities

    [parseFloat] also returns [Infinity] and [-Infinity] (for ["1e999"],
    ["-Infinity"]), which [JS.num] leaves out.  [Wide.num] adds them, with
    the operations of lines 58-59, 94 and 104 on them, for the statements
    in which an infinite price makes a difference.  A finite quotient by an
    infinity is a zero; its sign is not kept, and none of [!x], [x === 0]
    and [x < y] depends on it.  Division by zero is answered [NaN] as in
    [JS.div]: [calcSpread] never divides by zero. *)

Module Wide.

Inductive num : Type :=
  | NaN
  | NegInf
  | PosInf
  | Fin (q : Q).

(** [isNaN x] *)
Definition isNaN (x : num) : bool :=
  match x with NaN => true | _ => false end.

(** [!x]: true for [NaN] and for zero; an infinity is truthy. *)
Definition not (x : num) : bool :=
  match x with NaN => true | Fin q => Qeq_bool q 0 | _ => false end.

(** [x === y] *)
Definition seq (x y : num) : bool :=
  match x, y with
  | Fin a, Fin b => Qeq_bool a b
  | NegInf, NegInf => true
  | PosInf, PosInf => true
  | _, _ => false
  end.

(** [x < y] *)
Definition lt (x y : num) : bool :=
  match x, y with
  | NaN, _ => false
  | _, NaN => false
  | _, NegInf => false
  | NegInf, _ => true
  | PosInf, _ => false
  | Fin _, PosInf => true
  | Fin a, Fin b => negb (Qle_bool b a)
  end.

(** [x > y] *)
Definition gt (x y : num) : bool := lt y x.

(** [x - y] *)
Definition sub (x y : num) : num :=
  match x, y with
  | NaN, _ => NaN
  | _, NaN => NaN
  | PosInf, PosInf => NaN
  | NegInf, NegInf => NaN
  | PosInf, _ => PosInf
  | NegInf, _ => NegInf
  | Fin _, PosInf => NegInf
  | Fin _, NegInf => PosInf
  | Fin a, Fin b => Fin (a - b)
  end.

(** An infinity scaled by a finite factor: [NaN] for the factor zero. *)
Definition scaled (positive : bool) (q : Q) : num :=
  match q ?= 0 with
  | Eq => NaN
  | Gt => if positive then PosInf else NegInf
  | Lt => if positive then NegInf else PosInf
  end.

(** [x * y] *)
Definition mul (x y : num) : num :=
  match x, y with
  | NaN, _ => NaN
  | _, NaN => NaN
  | Fin a, Fin b => Fin (a * b)
  | Fin a, PosInf => scaled true a
  | PosInf, Fin a => scaled true a
  | Fin a, NegInf => scaled false a
  | NegInf, Fin a => scaled false a
  | PosInf, PosInf => PosInf
  | NegInf, NegInf => PosInf
  | PosInf, NegInf => NegInf
  | NegInf, PosInf => NegInf
  end.

(** [x / y] *)
Definition div (x y : num) : num :=
  match x, y with
  | NaN, _ => NaN
  | _, NaN => NaN
  | Fin a, Fin b => if Qeq_bool b 0 then NaN else Fin (a / b)
  | Fin _, _ => Fin 0
  | PosInf, Fin b => scaled true b
  | NegInf, Fin b => scaled false b
  | _, _ => NaN
  end.

(** Lines 57-60. *)
Definition calcSpread (lastPrice indexPrice : num) : num :=
  if not lastPrice || not indexPrice || seq indexPrice (Fin 0)
  then Fin 0
  else mul (div (sub lastPrice indexPrice) indexPrice) (Fin 100).

(** Line 94: [!isNaN(indexPrice) && indexPrice > 0]. *)
Definition validIndex (parsed : num) : bool :=
  negb (isNaN parsed) && gt parsed (Fin 0).

(** Line 104. *)
Definition directionOf (last index : num) : Direction :=
  if lt last index then LONG else SHORT.

(** The numbers of [JS.num] among these. *)
Definition ofJS (x : JS.num) : num :=
  match x with JS.NaN => NaN | JS.Num q => Fin q end.

End Wide.

(** ** Theorems *)

Lemma calcSpread_guard (l i : JS.num) :
  (JS.not l || JS.not i)%bool = true -> calcSpread l i = JS.Num 0.
Proof. intros H. unfold calcSpread. rewrite H. reflexivity. Qed.

Lemma calcSpread_formula (a b : Q) :
  ~ a == 0 -> ~ b == 0 ->
  calcSpread (JS.Num a) (JS.Num b) = JS.Num ((a - b) / b * 100).
Proof.
  intros Ha Hb. unfold calcSpread. simpl.
  destruct (Qeq_bool a 0) eqn:Ea; [apply Qeq_bool_iff in Ea; contradiction|].
  destruct (Qeq_bool b 0) eqn:Eb; [apply Qeq_bool_iff in Eb; contradiction|].
  reflexivity.
Qed.


(** *** Reference price resolution *)

Lemma validIndex_positive (x : JS.num) :
  validIndex x = true <-> exists q, x = JS.Num q /\ 0 < q.
Proof.
  unfold validIndex. destruct x as [|q]; simpl.
  - split; [discriminate | intros (q & H & _); discriminate].
  - rewrite negb_true_iff. split.
    + intros H. exists q. split; [reflexivity|].
      destruct (Qlt_le_dec 0 q) as [Hlt|Hle]; [exact Hlt|].
      apply Qle_bool_iff in Hle. congruence.
    + intros (q' & E & Hpos). injection E as ->.
      destruct (Qle_bool q' 0) eqn:Hb; [|reflexivity].
      apply Qle_bool_iff in Hb. lra.
Qed.

Lemma resolve_valid (sym : string) (x : JS.num) (cache : gmap string JS.num) :
  validIndex x = true ->
  resolveIndexPrice sym x cache = (<[sym := x]> cache, x).
Proof. intros H. unfold resolveIndexPrice. now rewrite H. Qed.

Lemma resolve_invalid (sym : string) (x : JS.num) (cache : gmap string JS.num) :
  validIndex x = false ->
  resolveIndexPrice sym x cache = (cache, default JS.NaN (cache !! sym)).
Proof. intros H. unfold resolveIndexPrice. now rewrite H. Qed.

(** *** Tick processing, case by case *)

Section Ticks.

Variable cfg : Config.
Variable clk : Clock.

Lemma process_rejected (data : Ticker) (st : State) :
  rejected (symbol data) (lastPrice data) (resolved data st) = true ->
  processTickerData cfg clk data st = (withCache data st, []).
Proof. intros H. unfold processTickerData. now rewrite H. Qed.

Lemma process_entry (data : Ticker) (st : State) :
  rejected (symbol data) (lastPrice data) (resolved data st) = false ->
  activeSignals st !! symbol data = None ->
  JS.ge (JS.abs (calcSpread (lastPrice data) (resolved data st)))
        (SPREAD_ENTRY_THRESHOLD cfg) = true ->
  cooldownOk cfg (checkedAt clk)
             (lastSentOf (symbol data) (lastSignalTime st)) = true ->
  processTickerData cfg clk data st =
    ({| activeSignals :=
          <[symbol data :=
              {| direction := directionOf (lastPrice data) (resolved data st);
                 entryTime := enteredAt clk;
                 entrySpread := calcSpread (lastPrice data) (resolved data st) |}]>
            (activeSignals st);
        lastSignalTime := <[symbol data := stampedAt clk]> (lastSignalTime st);
        lastIndexPrice := cached data st |},
     [Entry (symbol data) (directionOf (lastPrice data) (resolved data st))
            (lastPrice data) (resolved data st)
            (calcSpread (lastPrice data) (resolved data st))]).
Proof.
  intros Hrej Hidle Hthr Hcool. unfold processTickerData, hasSignal.
  rewrite Hrej, Hidle, Hthr, Hcool. reflexivity.
Qed.

Lemma process_idle_quiet (data : Ticker) (st : State) :
  rejected (symbol data) (lastPrice data) (resolved data st) = false ->
  activeSignals st !! symbol data = None ->
  JS.ge (JS.abs (calcSpread (lastPrice data) (resolved data st)))
        (SPREAD_ENTRY_THRESHOLD cfg)
  && cooldownOk cfg (checkedAt clk)
                (lastSentOf (symbol data) (lastSignalTime st)) = false ->
  processTickerData cfg clk data st = (withCache data st, []).
Proof.
  intros Hrej Hidle Hno. unfold processTickerData, hasSignal.
  rewrite Hrej, Hidle. simpl negb. rewrite andb_true_l, Hno. reflexivity.
Qed.

Lemma process_exit (data : Ticker) (st : State) (sig : Signal) :
  rejected (symbol data) (lastPrice data) (resolved data st) = false ->
  activeSignals st !! symbol data = Some sig ->
  JS.le (JS.abs (calcSpread (lastPrice data) (resolved data st)))
        (SPREAD_EXIT_THRESHOLD cfg) = true ->
  processTickerData cfg clk data st =
    ({| activeSignals := delete (symbol data) (activeSignals st);
        lastSignalTime := lastSignalTime st;
        lastIndexPrice := cached data st |},
     [Exit (symbol data) (direction sig) (lastPrice data) (resolved data st)
           (calcSpread (lastPrice data) (resolved data st))
           (entrySpread sig)]).
Proof.
  intros Hrej Hact Hthr. unfold processTickerData, hasSignal.
  rewrite Hrej, Hact, Hthr. reflexivity.
Qed.

Lemma process_active_quiet (data : Ticker) (st : State) (sig : Signal) :
  rejected (symbol data) (lastPrice data) (resolved data st) = false ->
  activeSignals st !! symbol data = Some sig ->
  JS.le (JS.abs (calcSpread (lastPrice data) (resolved data st)))
        (SPREAD_EXIT_THRESHOLD cfg) = false ->
  processTickerData cfg clk data st = (withCache data st, []).
Proof.
  intros Hrej Hact Hthr. unfold processTickerData, hasSignal.
  rewrite Hrej, Hact, Hthr. reflexivity.
Qed.

End Ticks.

(** *** Comparisons of the number model *)

Lemma lt_Num (a b : Q) : JS.lt (JS.Num a) (JS.Num b) = true <-> a < b.
Proof.
  simpl. rewrite negb_true_iff. split.
  - intros H. destruct (Qlt_le_dec a b) as [Hlt|Hle]; [exact Hlt|].
    apply Qle_bool_iff in Hle. congruence.
  - intros H. destruct (Qle_bool b a) eqn:Hb; [|reflexivity].
    apply Qle_bool_iff in Hb. lra.
Qed.

Lemma le_Num (a b : Q) : JS.le (JS.Num a) (JS.Num b) = true <-> a <= b.
Proof. simpl. apply Qle_bool_iff. Qed.

Lemma not_true_iff (x : JS.num) : JS.not x = true <-> zeroOrMissing x.
Proof.
  destruct x as [|q]; simpl; [tauto|]. apply Qeq_bool_iff.
Qed.

(** *** C3 *)

(** C3, as stated, fails: a negative traded price is non-positive, yet
    [calcSpread (-5) 100] is the formula's value -105 and not 0. *)
Lemma calcSpread_negative_traded :
  JS.le (JS.Num (-5)) (JS.Num 0) = true /\
  JS.same (calcSpread (JS.Num (-5)) (JS.Num 100)) (JS.Num (-105)) /\
  ~ JS.same (calcSpread (JS.Num (-5)) (JS.Num 100)) (JS.Num 0).
Proof.
  repeat split; vm_compute; intros H; discriminate H.
Qed.

(** C3 (amended).  [calcSpread] returns 0 whenever either input is zero or
    missing ([NaN]); for every other pair, negative inputs included, it
    returns [((traded - reference) / reference) * 100].  These two cases
    cover every pair, so there is no other outcome. *)
Theorem calcSpread_zero_or_formula :
  (forall l i : JS.num,
     zeroOrMissing l \/ zeroOrMissing i -> calcSpread l i = JS.Num 0) /\
  (forall a b : Q,
     ~ a == 0 -> ~ b == 0 ->
     calcSpread (JS.Num a) (JS.Num b) = JS.Num ((a - b) / b * 100)).
Proof.
  split.
  - intros l i H. apply calcSpread_guard. apply orb_true_iff.
    destruct H as [H|H]; [left|right]; now apply not_true_iff.
  - exact calcSpread_formula.
Qed.

Lemma calcSpread_zero_or_formula_witness :
  calcSpread JS.NaN (JS.Num 100) = JS.Num 0 /\
  calcSpread (JS.Num 99) (JS.Num 100) = JS.Num ((99 - 100) / 100 * 100).
Proof.
  split.
  - apply (proj1 calcSpread_zero_or_formula). left. exact I.
  - apply (proj2 calcSpread_zero_or_formula); vm_compute; intros H; discriminate H.
Defined.

(** *** C9 *)

(** Sign consistency among finite prices.  For a tick with a traded price
    that is a non-zero number (every positive price is) and a reference
    price above zero, the direction is
    LONG exactly when traded < reference and SHORT otherwise, equality
    included, and the spread is negative exactly when the direction is
    LONG.  Arithmetic is exact in the number model. *)
Theorem direction_sign_consistent (l i : Q) :
  ~ l == 0 -> 0 < i ->
  (directionOf (JS.Num l) (JS.Num i) = LONG <-> l < i) /\
  (directionOf (JS.Num l) (JS.Num i) = SHORT <-> i <= l) /\
  (JS.lt (calcSpread (JS.Num l) (JS.Num i)) (JS.Num 0) = true <->
   directionOf (JS.Num l) (JS.Num i) = LONG).
Proof.
  intros Hl Hi.
  assert (Hdir : directionOf (JS.Num l) (JS.Num i) = LONG <-> l < i).
  { unfold directionOf. destruct (JS.lt (JS.Num l) (JS.Num i)) eqn:E.
    - apply lt_Num in E. tauto.
    - split; [discriminate|]. intros H. apply lt_Num in H. congruence. }
  split; [exact Hdir|]. split.
  - unfold directionOf in *. destruct (JS.lt (JS.Num l) (JS.Num i)) eqn:E.
    + apply lt_Num in E. split; [discriminate | intros; lra].
    + split; [intros _|reflexivity].
      destruct (Qlt_le_dec l i) as [Hlt|Hle]; [|exact Hle].
      apply lt_Num in Hlt. congruence.
  - rewrite Hdir, calcSpread_formula by (try assumption; lra).
    rewrite lt_Num.
    assert (Hk : 0 < / i) by (apply Qinv_lt_0_compat; exact Hi).
    unfold Qdiv. set (k := / i) in *. clearbody k.
    split; intros H; nra.
Qed.

Lemma direction_sign_consistent_witness :
  (directionOf (JS.Num 99) (JS.Num 100) = LONG <-> 99 < 100) /\
  (directionOf (JS.Num 99) (JS.Num 100) = SHORT <-> 100 <= 99) /\
  (JS.lt (calcSpread (JS.Num 99) (JS.Num 100)) (JS.Num 0) = true <->
   directionOf (JS.Num 99) (JS.Num 100) = LONG).
Proof.
  apply (direction_sign_consistent 99 100).
  - vm_compute. intros H. discriminate H.
  - reflexivity.
Defined.

(** *** C1 *)

Lemma withCache_same (data : Ticker) (st : State) :
  validIndex (indexPrice data) = false -> withCache data st = st.
Proof.
  intros H. unfold withCache, cached. rewrite resolve_invalid by exact H.
  destruct st; reflexivity.
Qed.

Lemma resolved_absent (data : Ticker) (st : State) :
  validIndex (indexPrice data) = false ->
  lastIndexPrice st !! symbol data = None ->
  resolved data st = JS.NaN.
Proof.
  intros Hv Hnone. unfold resolved. rewrite resolve_invalid by exact Hv.
  simpl. now rewrite Hnone.
Qed.

Lemma rejected_when_invalid (data : Ticker) (st : State) :
  JS.isNaN (lastPrice data) = true \/
  (validIndex (indexPrice data) = false /\
   lastIndexPrice st !! symbol data = None) ->
  rejected (symbol data) (lastPrice data) (resolved data st) = true.
Proof.
  intros [H|[Hv Hn]]; unfold rejected.
  - rewrite H. now rewrite orb_true_r.
  - rewrite (resolved_absent data st Hv Hn). simpl. now rewrite orb_true_r.
Qed.

Lemma process_absent_reference (cfg : Config) (clk : Clock) (data : Ticker)
    (st : State) :
  validIndex (indexPrice data) = false ->
  lastIndexPrice st !! symbol data = None ->
  processTickerData cfg clk data st = (st, []).
Proof.
  intros Hv Hn. rewrite process_rejected.
  - now rewrite withCache_same.
  - apply rejected_when_invalid. right. now split.
Qed.

(** C1, as stated, fails: the traded price -5 is non-positive, yet the tick
    is processed, its spread is -105 and an idle instrument enters. *)
Lemma negative_traded_price_enters :
  let data := tick "BTCUSDT" (JS.Num (-5)) (JS.Num 100) in
  let r := processTickerData defaultConfig (atTime 1700000000000) data
                             emptyState in
  JS.le (lastPrice data) (JS.Num 0) = true /\
  ~ JS.same (calcSpread (lastPrice data) (resolved data emptyState)) (JS.Num 0) /\
  snd r = [Entry "BTCUSDT" LONG (JS.Num (-5)) (JS.Num 100)
                 (calcSpread (JS.Num (-5)) (JS.Num 100))] /\
  activeSignals (fst r) !! "BTCUSDT" =
    Some {| direction := LONG; entryTime := 1700000000000;
            entrySpread := calcSpread (JS.Num (-5)) (JS.Num 100) |} /\
  activeSignals emptyState !! "BTCUSDT" = None /\
  lastSignalTime (fst r) !! "BTCUSDT" = Some 1700000000000%Z.
Proof.
  cbv zeta. repeat split; try (vm_compute; reflexivity).
  vm_compute. intros H. discriminate H.
Qed.

(** C1 (amended).  A tick whose traded price is not a number, or whose
    incoming reference price is not a positive number while no reference
    price is cached for the instrument, performs no state transition: no
    event is emitted and the signal state and the cooldown timestamps are
    unchanged (in the second case the whole state is).  A traded price of
    zero yields spread 0.  An incoming reference price that is not a
    positive number is never used for the spread: when a price [p] is
    cached for the instrument the tick resolves to [p], the cache is left
    as it is, and whatever event is emitted carries [p] and the spread
    computed from [p]. *)
Theorem invalid_tick_no_transition (cfg : Config) (clk : Clock)
    (data : Ticker) (st : State) :
  (JS.isNaN (lastPrice data) = true \/
   (validIndex (indexPrice data) = false /\
    lastIndexPrice st !! symbol data = None) ->
   snd (processTickerData cfg clk data st) = [] /\
   activeSignals (fst (processTickerData cfg clk data st)) = activeSignals st /\
   lastSignalTime (fst (processTickerData cfg clk data st)) = lastSignalTime st) /\
  (validIndex (indexPrice data) = false ->
   lastIndexPrice st !! symbol data = None ->
   processTickerData cfg clk data st = (st, [])) /\
  (zeroOrMissing (lastPrice data) ->
   calcSpread (lastPrice data) (resolved data st) = JS.Num 0) /\
  (validIndex (indexPrice data) = false ->
   forall p : JS.num,
     lastIndexPrice st !! symbol data = Some p ->
     resolved data st = p /\
     lastIndexPrice (fst (processTickerData cfg clk data st)) = lastIndexPrice st /\
     (snd (processTickerData cfg clk data st) = [] \/
      (exists dir,
         snd (processTickerData cfg clk data st) =
           [Entry (symbol data) dir (lastPrice data) p
                  (calcSpread (lastPrice data) p)]) \/
      (exists dir entry,
         snd (processTickerData cfg clk data st) =
           [Exit (symbol data) dir (lastPrice data) p
                 (calcSpread (lastPrice data) p) entry]))).
Proof.
  split; [|split; [|split]].
  - intros H.
    rewrite (process_rejected cfg clk data st (rejected_when_invalid data st H)).
    now simpl.
  - apply process_absent_reference.
  - intros Hz. apply calcSpread_guard. apply orb_true_iff. left.
    now apply not_true_iff.
  - intros Hv p Hp.
    assert (Hres : resolved data st = p).
    { unfold resolved. rewrite resolve_invalid by exact Hv. cbn [snd].
      now rewrite Hp. }
    assert (Hc : cached data st = lastIndexPrice st).
    { unfold cached. now rewrite resolve_invalid by exact Hv. }
    split; [exact Hres|].
    unfold processTickerData, withCache. rewrite Hc, Hres.
    destruct (rejected _ _ _); [split; [reflexivity|now left]|].
    destruct (_ && _ && _).
    { split; [reflexivity|]. right; left. eexists. reflexivity. }
    destruct (activeSignals st !! symbol data) as [sig|];
      [|split; [reflexivity|now left]].
    destruct (JS.le _ _); [|split; [reflexivity|now left]].
    split; [reflexivity|]. right; right. do 2 eexists. reflexivity.
Qed.

Lemma invalid_tick_no_transition_witness :
  snd (processTickerData defaultConfig (atTime 1700000000000)
         (tick "BTCUSDT" JS.NaN (JS.Num 100)) emptyState) = [] /\
  processTickerData defaultConfig (atTime 1700000000000)
    (tick "BTCUSDT" (JS.Num 101) (JS.Num (-1))) emptyState = (emptyState, []) /\
  calcSpread (JS.Num 0) (JS.Num 100) = JS.Num 0 /\
  resolved (tick "BTCUSDT" (JS.Num 102) (JS.Num (-1)))
           {| activeSignals := ∅; lastSignalTime := ∅;
              lastIndexPrice := {[ "BTCUSDT" := JS.Num 100 ]} |} = JS.Num 100.
Proof.
  split; [|split; [|split]].
  - apply (proj1 (invalid_tick_no_transition defaultConfig (atTime 1700000000000)
                    (tick "BTCUSDT" JS.NaN (JS.Num 100)) emptyState)).
    left. reflexivity.
  - apply (proj1 (proj2 (invalid_tick_no_transition defaultConfig
                    (atTime 1700000000000)
                    (tick "BTCUSDT" (JS.Num 101) (JS.Num (-1))) emptyState)));
      reflexivity.
  - apply (proj1 (proj2 (proj2 (invalid_tick_no_transition defaultConfig
                    (atTime 1700000000000)
                    (tick "BTCUSDT" (JS.Num 0) (JS.Num 100)) emptyState)))).
    reflexivity.
  - refine (proj1 (proj2 (proj2 (proj2 (invalid_tick_no_transition defaultConfig
                    (atTime 1700000000000)
                    (tick "BTCUSDT" (JS.Num 102) (JS.Num (-1)))
                    {| activeSignals := ∅; lastSignalTime := ∅;
                       lastIndexPrice := {[ "BTCUSDT" := JS.Num 100 ]} |})))
             _ (JS.Num 100) _)).
    + reflexivity.
    + vm_compute. reflexivity.
Defined.

(** *** C5 *)

Lemma lastSent_missing (sym : string) (times : gmap string Z) :
  times !! sym = None -> lastSentOf sym times = 0%Z.
Proof. intros H. unfold lastSentOf. now rewrite H. Qed.

(** C5, as stated, fails: the instrument is idle, has no cooldown record
    and its spread of 2 is above the entry threshold, yet with the cooldown
    set to 2000000000000 ms no Entry is emitted at time 1700000000000: the
    missing record counts as timestamp 0 and 1700000000000 - 0 is below the
    cooldown. *)
Lemma missing_cooldown_record_blocks_entry :
  let cfg := {| SPREAD_ENTRY_THRESHOLD := JS.Num (7 # 10);
                SPREAD_EXIT_THRESHOLD := JS.Num (5 # 10);
                SIGNAL_COOLDOWN_MS := JS.Num 2000000000000;
                MAX_WS_CONNECTIONS := 5;
                BATCH_SIZE := 10 |} in
  let data := tick "BTCUSDT" (JS.Num 102) (JS.Num 100) in
  rejected (symbol data) (lastPrice data) (resolved data emptyState) = false /\
  activeSignals emptyState !! "BTCUSDT" = None /\
  lastSignalTime emptyState !! "BTCUSDT" = None /\
  JS.ge (JS.abs (calcSpread (lastPrice data) (resolved data emptyState)))
        (SPREAD_ENTRY_THRESHOLD cfg) = true /\
  snd (processTickerData cfg (atTime 1700000000000) data emptyState) = [] /\
  activeSignals (fst (processTickerData cfg (atTime 1700000000000) data
                        emptyState)) !! "BTCUSDT" = None.
Proof. cbv zeta. repeat split; vm_compute; reflexivity. Qed.

(** C5 (amended).  For a tick that passes the guard of line 100 and whose
    instrument is idle: an Entry event is emitted, the signal becomes
    [{direction, entryTime, entrySpread}] with the direction and spread of
    the tick and the clock reading at entry, and the cooldown timestamp is
    set to the clock reading at stamping, if and only if the absolute
    spread is at least the entry threshold and [now - lastSent >=
    cooldownMs]; otherwise nothing is emitted and no signal or cooldown
    changes.  A missing cooldown record counts as [lastSent = 0]: it
    satisfies the condition exactly when [now >= cooldownMs]. *)
Theorem entry_iff_threshold_and_cooldown (cfg : Config) (clk : Clock)
    (data : Ticker) (st : State) :
  rejected (symbol data) (lastPrice data) (resolved data st) = false ->
  activeSignals st !! symbol data = None ->
  let spread := calcSpread (lastPrice data) (resolved data st) in
  let dir := directionOf (lastPrice data) (resolved data st) in
  let r := processTickerData cfg clk data st in
  ((snd r = [Entry (symbol data) dir (lastPrice data) (resolved data st) spread] /\
    activeSignals (fst r) =
      <[symbol data := {| direction := dir; entryTime := enteredAt clk;
                          entrySpread := spread |}]> (activeSignals st) /\
    lastSignalTime (fst r) = <[symbol data := stampedAt clk]> (lastSignalTime st))
   <->
   (JS.ge (JS.abs spread) (SPREAD_ENTRY_THRESHOLD cfg) = true /\
    cooldownOk cfg (checkedAt clk)
               (lastSentOf (symbol data) (lastSignalTime st)) = true)) /\
  (~ (JS.ge (JS.abs spread) (SPREAD_ENTRY_THRESHOLD cfg) = true /\
      cooldownOk cfg (checkedAt clk)
                 (lastSentOf (symbol data) (lastSignalTime st)) = true) ->
   snd r = [] /\
   activeSignals (fst r) = activeSignals st /\
   lastSignalTime (fst r) = lastSignalTime st /\
   r = (withCache data st, [])) /\
  (snd r = [] ->
   activeSignals (fst r) = activeSignals st /\
   lastSignalTime (fst r) = lastSignalTime st) /\
  (snd r = [] \/
   snd r = [Entry (symbol data) dir (lastPrice data) (resolved data st) spread]) /\
  (lastSignalTime st !! symbol data = None ->
   cooldownOk cfg (checkedAt clk)
              (lastSentOf (symbol data) (lastSignalTime st)) =
   JS.ge (JS.Num (inject_Z (checkedAt clk))) (SIGNAL_COOLDOWN_MS cfg)).
Proof.
  intros Hrej Hidle spread dir r.
  assert (Hmiss : lastSignalTime st !! symbol data = None ->
            cooldownOk cfg (checkedAt clk)
                       (lastSentOf (symbol data) (lastSignalTime st)) =
            JS.ge (JS.Num (inject_Z (checkedAt clk))) (SIGNAL_COOLDOWN_MS cfg)).
  { intros Hn. rewrite (lastSent_missing _ _ Hn). unfold cooldownOk.
    now rewrite Z.sub_0_r. }
  destruct (JS.ge (JS.abs spread) (SPREAD_ENTRY_THRESHOLD cfg)
            && cooldownOk cfg (checkedAt clk)
                 (lastSentOf (symbol data) (lastSignalTime st))) eqn:Hc.
  - pose proof Hc as Hboth. apply andb_true_iff in Hboth as [Hthr Hcool].
    assert (Hr : r = _)
      by (exact (process_entry cfg clk data st Hrej Hidle Hthr Hcool)).
    rewrite Hr. cbn [fst snd activeSignals lastSignalTime].
    split; [|split; [|split; [|split]]].
    + split; [intros _; now split | intros _; now repeat split].
    + intros Hno. exfalso. apply Hno. now split.
    + discriminate.
    + now right.
    + exact Hmiss.
  - assert (Hr : r = _)
      by (exact (process_idle_quiet cfg clk data st Hrej Hidle Hc)).
    rewrite Hr. cbn [fst snd withCache activeSignals lastSignalTime].
    split; [|split; [|split; [|split]]].
    + split.
      * intros (Habs & _). discriminate Habs.
      * intros (Hthr & Hcool). fold spread in Hc. rewrite Hthr, Hcool in Hc.
        discriminate Hc.
    + intros _. now repeat split.
    + intros _. now split.
    + now left.
    + exact Hmiss.
Qed.

Lemma entry_iff_threshold_and_cooldown_witness :
  snd (processTickerData defaultConfig (atTime 1700000000000)
         (tick "BTCUSDT" (JS.Num 102) (JS.Num 100)) emptyState)
  = [Entry "BTCUSDT" SHORT (JS.Num 102) (JS.Num 100)
           (calcSpread (JS.Num 102) (JS.Num 100))].
Proof.
  apply (proj2 (proj1 (entry_iff_threshold_and_cooldown defaultConfig
           (atTime 1700000000000)
           (tick "BTCUSDT" (JS.Num 102) (JS.Num 100)) emptyState
           eq_refl eq_refl))).
  split; reflexivity.
Defined.

(** *** C6 *)

(** C6.  For a tick that passes the guard of line 100 and whose instrument
    has an active signal: an Exit event carrying the spread recorded at
    entry and the current spread is emitted and the signal is removed, if
    and only if the absolute spread is at most the exit threshold;
    otherwise nothing is emitted and the signal stays.  Neither the clock
    nor the cooldown setting enters the decision, and the cooldown
    timestamps are the same after the tick, Exit or not. *)
Theorem exit_iff_threshold (cfg : Config) (clk : Clock) (data : Ticker)
    (st : State) (sig : Signal) :
  rejected (symbol data) (lastPrice data) (resolved data st) = false ->
  activeSignals st !! symbol data = Some sig ->
  let spread := calcSpread (lastPrice data) (resolved data st) in
  let r := processTickerData cfg clk data st in
  ((snd r = [Exit (symbol data) (direction sig) (lastPrice data)
                  (resolved data st) spread (entrySpread sig)] /\
    activeSignals (fst r) = delete (symbol data) (activeSignals st) /\
    activeSignals (fst r) !! symbol data = None)
   <-> JS.le (JS.abs spread) (SPREAD_EXIT_THRESHOLD cfg) = true) /\
  (JS.le (JS.abs spread) (SPREAD_EXIT_THRESHOLD cfg) = false ->
   snd r = [] /\ activeSignals (fst r) = activeSignals st) /\
  lastSignalTime (fst r) = lastSignalTime st.
Proof.
  intros Hrej Hact spread r.
  destruct (JS.le (JS.abs spread) (SPREAD_EXIT_THRESHOLD cfg)) eqn:Hthr.
  - assert (Hr : r = _) by (exact (process_exit cfg clk data st sig Hrej Hact Hthr)).
    rewrite Hr. cbn [fst snd activeSignals lastSignalTime].
    split; [|split].
    + split; [reflexivity|]. intros _.
      split; [reflexivity|]. split; [reflexivity|]. apply lookup_delete_eq.
    + discriminate.
    + reflexivity.
  - assert (Hr : r = _)
      by (exact (process_active_quiet cfg clk data st sig Hrej Hact Hthr)).
    rewrite Hr. cbn [fst snd withCache activeSignals lastSignalTime].
    split; [|split].
    + split; [|discriminate]. intros (Habs & _). discriminate Habs.
    + intros _. now split.
    + reflexivity.
Qed.

Lemma exit_iff_threshold_witness :
  snd (processTickerData defaultConfig (atTime 5)
         (tick "BTCUSDT" (JS.Num 100) (JS.Num 100))
         (activeState "BTCUSDT"
            {| direction := LONG; entryTime := 0; entrySpread := JS.Num (-1) |}))
  = [Exit "BTCUSDT" LONG (JS.Num 100) (JS.Num 100)
          (calcSpread (JS.Num 100) (JS.Num 100)) (JS.Num (-1))].
Proof.
  apply (proj2 (proj1 (exit_iff_threshold defaultConfig (atTime 5)
           (tick "BTCUSDT" (JS.Num 100) (JS.Num 100))
           (activeState "BTCUSDT"
              {| direction := LONG; entryTime := 0; entrySpread := JS.Num (-1) |})
           {| direction := LONG; entryTime := 0; entrySpread := JS.Num (-1) |}
           eq_refl eq_refl))).
  reflexivity.
Defined.

(** *** C10 *)

Lemma process_cases (cfg : Config) (clk : Clock) (data : Ticker) (st : State) :
  let last := lastPrice data in
  let index := resolved data st in
  let spread := calcSpread last index in
  processTickerData cfg clk data st = (withCache data st, []) \/
  (activeSignals st !! symbol data = None /\
   cooldownOk cfg (checkedAt clk)
              (lastSentOf (symbol data) (lastSignalTime st)) = true /\
   processTickerData cfg clk data st =
     ({| activeSignals :=
           <[symbol data := {| direction := directionOf last index;
                               entryTime := enteredAt clk;
                               entrySpread := spread |}]> (activeSignals st);
         lastSignalTime := <[symbol data := stampedAt clk]> (lastSignalTime st);
         lastIndexPrice := cached data st |},
      [Entry (symbol data) (directionOf last index) last index spread])) \/
  (exists sig, activeSignals st !! symbol data = Some sig /\
   processTickerData cfg clk data st =
     ({| activeSignals := delete (symbol data) (activeSignals st);
         lastSignalTime := lastSignalTime st;
         lastIndexPrice := cached data st |},
      [Exit (symbol data) (direction sig) last index spread (entrySpread sig)])).
Proof.
  cbv zeta. unfold processTickerData, hasSignal.
  destruct (rejected _ _ _); [now left|].
  destruct (activeSignals st !! symbol data) as [sig|] eqn:Hs; simpl negb.
  - rewrite andb_false_l.
    destruct (JS.le _ _); [|now left]. right; right. now exists sig.
  - rewrite andb_true_l.
    destruct (JS.ge _ _); [|now left]. rewrite andb_true_l.
    destruct (cooldownOk _ _ _); [|now left]. right; left. now repeat split.
Qed.

(** C10.  Every Exit event reports the direction (and the entry spread)
    stored in the active signal of its instrument, not the direction of the
    tick that triggers it; the two differ when the traded and reference
    prices have changed order while the signal was active, as for a LONG
    signal closed by a tick with traded 100.1 above reference 100. *)
Theorem exit_reports_entry_direction :
  (forall (cfg : Config) (clk : Clock) (data : Ticker) (st : State)
          (sym : string) (dir : Direction) (last index spread entry : JS.num),
     In (Exit sym dir last index spread entry)
        (snd (processTickerData cfg clk data st)) ->
     exists sig, activeSignals st !! symbol data = Some sig /\
                 sym = symbol data /\ dir = direction sig /\
                 entry = entrySpread sig) /\
  (let data := tick "BTCUSDT" (JS.Num (1001 # 10)) (JS.Num 100) in
   let sig := {| direction := LONG; entryTime := 0; entrySpread := JS.Num (-1) |} in
   let st := activeState "BTCUSDT" sig in
   snd (processTickerData defaultConfig (atTime 5) data st) =
     [Exit "BTCUSDT" LONG (lastPrice data) (resolved data st)
           (calcSpread (lastPrice data) (resolved data st)) (JS.Num (-1))] /\
   directionOf (lastPrice data) (resolved data st) = SHORT).
Proof.
  split.
  - intros cfg clk data st sym dir last index spread entry Hin.
    destruct (process_cases cfg clk data st) as [H|[(_ & _ & H)|(sig & Hs & H)]];
      rewrite H in Hin; simpl in Hin.
    + contradiction.
    + destruct Hin as [Hin|[]]. discriminate Hin.
    + destruct Hin as [Hin|[]]. injection Hin as <- <- <- <- <- <-.
      now exists sig.
  - cbv zeta. split; vm_compute; reflexivity.
Qed.

Lemma exit_reports_entry_direction_witness :
  exists sig,
    activeSignals (activeState "BTCUSDT"
       {| direction := LONG; entryTime := 0; entrySpread := JS.Num (-1) |})
      !! "BTCUSDT" = Some sig /\
    "BTCUSDT" = "BTCUSDT" /\ LONG = direction sig /\
    JS.Num (-1) = entrySpread sig.
Proof.
  apply (proj1 exit_reports_entry_direction defaultConfig (atTime 5)
           (tick "BTCUSDT" (JS.Num (1001 # 10)) (JS.Num 100))
           (activeState "BTCUSDT"
              {| direction := LONG; entryTime := 0; entrySpread := JS.Num (-1) |})
           "BTCUSDT" LONG (JS.Num (1001 # 10)) (JS.Num 100)
           (calcSpread (JS.Num (1001 # 10)) (JS.Num 100)) (JS.Num (-1))).
  left. reflexivity.
Defined.

(** *** C7 *)

Lemma process_cache (cfg : Config) (clk : Clock) (data : Ticker) (st : State) :
  lastIndexPrice (fst (processTickerData cfg clk data st)) = cached data st.
Proof.
  unfold processTickerData.
  destruct (rejected _ _ _); [reflexivity|].
  destruct (_ && _ && _); [reflexivity|].
  destruct (activeSignals st !! symbol data); [|reflexivity].
  destruct (JS.le _ _); reflexivity.
Qed.




(** *** C8 *)

Lemma entriesFor_app (sym : string) (xs ys : list Event) :
  entriesFor sym (xs ++ ys) = (entriesFor sym xs + entriesFor sym ys)%nat.
Proof. unfold entriesFor. now rewrite List.filter_app, length_app. Qed.





(** *** Subscription planning *)

Section Planner.

Local Open Scope nat_scope.

(** [ceilDiv a b] is the least [k] with [a <= k * b]: it is [Math.ceil (a / b)]. *)
Lemma ceilDiv_spec (a b k : nat) : 1 <= b -> (ceilDiv a b <= k <-> a <= k * b).
Proof.
  intros Hb. unfold ceilDiv.
  pose proof (Nat.div_mod_eq (a + (b - 1)) b) as Hdiv.
  pose proof (Nat.mod_upper_bound (a + (b - 1)) b ltac:(lia)) as Hmod.
  set (q := (a + (b - 1)) / b) in *. set (r := (a + (b - 1)) mod b) in *.
  clearbody q r. split; intros H; nia.
Qed.

Lemma ceilDiv_covers (a b : nat) : 1 <= b -> a <= ceilDiv a b * b.
Proof. intros Hb. now apply ceilDiv_spec. Qed.

Context {A : Type}.

Lemma length_slice (xs : list A) (from to : nat) :
  length (slice xs from to) = Nat.min (to - from) (length xs - from).
Proof. unfold slice. now rewrite length_take, length_drop. Qed.

Lemma take_then_slice (xs : list A) (n to : nat) :
  take n xs ++ slice xs n to = take (n + (to - n)) xs.
Proof. unfold slice. apply take_take_drop. Qed.

Lemma length_plan (cfg : Config) (symbols : list A) :
  length (initializeWebSockets cfg symbols) = actualConnections cfg symbols.
Proof. unfold initializeWebSockets. now rewrite length_map, length_seq. Qed.

Lemma plan_lookup (cfg : Config) (symbols : list A) (i : nat) (shard : list A) :
  initializeWebSockets cfg symbols !! i = Some shard ->
  i < actualConnections cfg symbols /\ shard = shardOf cfg symbols i.
Proof.
  unfold initializeWebSockets. rewrite list_lookup_fmap.
  destruct (seq 0 (actualConnections cfg symbols) !! i) as [j|] eqn:Hj;
    [|discriminate].
  apply lookup_seq in Hj as [-> Hlt]. simpl. intros [= <-]. now split.
Qed.

Lemma length_shard (cfg : Config) (symbols : list A) (i : nat) :
  length (shardOf cfg symbols i) =
  Nat.min ((i + 1) * symbolsPerConnection cfg symbols) (length symbols)
  - i * symbolsPerConnection cfg symbols.
Proof. unfold shardOf. cbv zeta. rewrite length_slice. lia. Qed.

(** The shards of the first [n] connections, one after the other, are the
    first [n * symbolsPerConnection] symbols. *)
Lemma shards_prefix (cfg : Config) (symbols : list A) (n : nat) :
  concat (map (shardOf cfg symbols) (seq 0 n)) =
  take (n * symbolsPerConnection cfg symbols) symbols.
Proof.
  induction n as [|n IH]; [now rewrite take_0|].
  rewrite seq_S, map_app, concat_app, IH. cbn [map concat Nat.add].
  rewrite app_nil_r. unfold shardOf. cbv zeta.
  set (per := symbolsPerConnection cfg symbols).
  rewrite take_then_slice.
  destruct (Nat.le_gt_cases ((n + 1) * per) (length symbols)) as [Hin|Hout].
  - f_equal. lia.
  - rewrite !take_ge; [reflexivity|lia|lia].
Qed.

Lemma plan_prefix (cfg : Config) (symbols : list A) :
  concat (initializeWebSockets cfg symbols) =
  take (actualConnections cfg symbols * symbolsPerConnection cfg symbols) symbols.
Proof. apply shards_prefix. Qed.

(** The plan is a partition of the universe as soon as the shard count is
    [MAX_WS_CONNECTIONS]. *)
Lemma plan_covers (cfg : Config) (symbols : list A) :
  1 <= MAX_WS_CONNECTIONS cfg ->
  MAX_WS_CONNECTIONS cfg <= ceilDiv (length symbols) (BATCH_SIZE cfg) ->
  concat (initializeWebSockets cfg symbols) = symbols.
Proof.
  intros HM Hle. rewrite plan_prefix. apply take_ge.
  unfold actualConnections, symbolsPerConnection.
  rewrite Nat.min_l by exact Hle. rewrite Nat.mul_comm.
  pose proof (ceilDiv_covers (length symbols) (MAX_WS_CONNECTIONS cfg) HM). lia.
Qed.

(** No instrument is handed to two connections, and the order is kept. *)
Lemma plan_NoDup (cfg : Config) (symbols : list A) :
  NoDup symbols -> NoDup (concat (initializeWebSockets cfg symbols)).
Proof.
  intros Hnd. rewrite plan_prefix.
  rewrite <- (take_drop (actualConnections cfg symbols
                         * symbolsPerConnection cfg symbols) symbols) in Hnd.
  now apply NoDup_app in Hnd as [H _].
Qed.

Lemma batchesFrom_concat (B : nat) (symbols : list A) :
  1 <= B ->
  forall fuel i, length symbols - i <= fuel ->
    concat (batchesFrom fuel B symbols i) = drop i symbols.
Proof.
  intros HB. induction fuel as [|fuel IH]; intros i Hfuel; cbn [batchesFrom].
  - rewrite drop_ge by lia. reflexivity.
  - destruct (Nat.ltb_spec i (length symbols)) as [Hlt|Hge].
    + cbn [concat]. rewrite IH by lia. unfold slice.
      replace (i + B - i) with B by lia.
      rewrite <- (drop_drop symbols B i). apply take_drop.
    + rewrite drop_ge by lia. reflexivity.
Qed.

Lemma batchesFrom_bounded (B : nat) (symbols : list A) :
  forall fuel i, Forall (fun b => length b <= B) (batchesFrom fuel B symbols i).
Proof.
  induction fuel as [|fuel IH]; intros i; cbn [batchesFrom]; [constructor|].
  destruct (i <? length symbols); [|constructor].
  constructor; [|apply IH]. rewrite length_slice. lia.
Qed.

(** With [BATCH_SIZE >= 1] the batch loop ends and splits the shard. *)
Lemma batches_concat (cfg : Config) (symbols : list A) :
  1 <= BATCH_SIZE cfg -> concat (batchesOf cfg symbols) = symbols.
Proof.
  intros HB. unfold batchesOf.
  rewrite batchesFrom_concat by (try exact HB; lia). apply drop_0.
Qed.

Lemma batches_bounded (cfg : Config) (symbols : list A) :
  Forall (fun b => length b <= BATCH_SIZE cfg) (batchesOf cfg symbols).
Proof. apply batchesFrom_bounded. Qed.

End Planner.

(** No subscribe frame of the plan names more than [BATCH_SIZE] topics. *)
Lemma wire_batches_bounded (cfg : Config) (symbols : list string) :
  Forall (fun b => (length b <= BATCH_SIZE cfg)%nat) (wireBatches cfg symbols).
Proof.
  unfold wireBatches. apply Forall_concat, Forall_map, Forall_forall.
  intros shard _. unfold subscribeToSymbols. apply Forall_map.
  eapply Forall_impl; [apply batches_bounded|].
  intros b Hb. simpl. now rewrite length_map.
Qed.

(** *** C2 *)

(** C2 at its failing input.  With the default settings (5 connections,
    batches of 10) and a universe of 8 distinct instruments the plan is one
    shard holding the first two instruments: one subscribe frame with two
    topics is sent and the other six instruments are never subscribed, so
    the shards do not reproduce the universe. *)
Theorem plan_omits_symbols :
  NoDup universe8 /\
  (1 <= MAX_WS_CONNECTIONS defaultConfig)%nat /\
  (1 <= BATCH_SIZE defaultConfig)%nat /\
  symbolsPerConnection defaultConfig universe8 = 2%nat /\
  actualConnections defaultConfig universe8 = 1%nat /\
  initializeWebSockets defaultConfig universe8 = [["BTCUSDT"; "ETHUSDT"]] /\
  wireBatches defaultConfig universe8 = [["tickers.BTCUSDT"; "tickers.ETHUSDT"]] /\
  concat (initializeWebSockets defaultConfig universe8) <> universe8 /\
  ~ In "SOLUSDT" (concat (initializeWebSockets defaultConfig universe8)).
Proof.
  split; [apply (bool_decide_unpack (NoDup universe8)); vm_compute; exact I|].
  repeat split; try (vm_compute; lia); try (vm_compute; reflexivity).
  - vm_compute. discriminate.
  - vm_compute. intros [H|[H|[]]]; discriminate H.
Qed.

(** *** C4 *)

(** C4, as stated, fails: with 5 connections, batches of 2 and 11
    instruments there are 5 shards of sizes 3, 3, 3, 2 and 0; the fourth
    shard is not the last one and holds 2 instruments, not
    [ceil (11 / 5) = 3]. *)
Lemma short_shard_before_last :
  let plan := initializeWebSockets smallBatchConfig universe11 in
  length plan = Nat.min 5 (ceilDiv 11 2) /\
  map length plan = [3; 3; 3; 2; 0]%nat /\
  ceilDiv (length universe11) (length plan) = 3%nat /\
  exists (i : nat) (shard : list string),
    (i + 1 < length plan)%nat /\ plan !! i = Some shard /\
    length shard <> ceilDiv (length universe11) (length plan).
Proof.
  cbv zeta. split; [vm_compute; reflexivity|].
  split; [vm_compute; reflexivity|]. split; [vm_compute; reflexivity|].
  exists 3%nat, ["LINKUSDT"; "DOTUSDT"].
  split; [vm_compute; lia|]. split; [vm_compute; reflexivity|].
  vm_compute. discriminate.
Qed.

(** C4 (amended).  For a universe of [U >= 1] instruments, [M >= 1] and
    [B >= 1], the plan has exactly [min M (ceil (U / B))] shards.  When
    that count is [M], with [T = ceil (U / count)]: no shard holds more
    than [T] instruments, and shard [i] holds exactly [T] whenever
    [(i + 1) * T <= U]; the shards after that point are shorter and can be
    empty, the last one or not. *)
Theorem plan_shape {A : Type} (cfg : Config) (symbols : list A) :
  (1 <= length symbols)%nat ->
  (1 <= MAX_WS_CONNECTIONS cfg)%nat ->
  (1 <= BATCH_SIZE cfg)%nat ->
  let plan := initializeWebSockets cfg symbols in
  let T := ceilDiv (length symbols) (length plan) in
  length plan =
    Nat.min (MAX_WS_CONNECTIONS cfg) (ceilDiv (length symbols) (BATCH_SIZE cfg)) /\
  (length plan = MAX_WS_CONNECTIONS cfg ->
   forall (i : nat) (shard : list A),
     plan !! i = Some shard ->
     (length shard <= T)%nat /\
     (((i + 1) * T <= length symbols)%nat -> length shard = T)).
Proof.
  intros _ _ _ plan T. split; [apply length_plan|].
  intros Hcount i shard Hi. apply plan_lookup in Hi as [_ ->].
  rewrite length_shard. subst T. rewrite Hcount.
  fold (symbolsPerConnection cfg symbols). split; [lia|]. intros Hin. lia.
Qed.

Lemma plan_shape_witness :
  length (initializeWebSockets smallBatchConfig universe11) =
    Nat.min 5 (ceilDiv 11 2) /\
  (length ["BTCUSDT"; "ETHUSDT"; "SOLUSDT"] <= 3)%nat /\
  length ["BTCUSDT"; "ETHUSDT"; "SOLUSDT"] = 3%nat.
Proof.
  pose proof (plan_shape smallBatchConfig universe11
                ltac:(vm_compute; lia) ltac:(vm_compute; lia)
                ltac:(vm_compute; lia)) as [Hlen Hshards].
  split; [exact Hlen|].
  destruct (Hshards eq_refl 0%nat ["BTCUSDT"; "ETHUSDT"; "SOLUSDT"] eq_refl)
    as [Hle Heq].
  split; [exact Hle|]. apply Heq. vm_compute. lia.
Defined.

(** ** Further properties of the tick processor *)

(** The accepted cases of a tick with everything the branch taken knows. *)
Lemma process_outcomes (cfg : Config) (clk : Clock) (data : Ticker) (st : State) :
  let last := lastPrice data in
  let index := resolved data st in
  let spread := calcSpread last index in
  processTickerData cfg clk data st = (withCache data st, []) \/
  (rejected (symbol data) last index = false /\
   activeSignals st !! symbol data = None /\
   JS.ge (JS.abs spread) (SPREAD_ENTRY_THRESHOLD cfg) = true /\
   processTickerData cfg clk data st =
     ({| activeSignals :=
           <[symbol data := {| direction := directionOf last index;
                               entryTime := enteredAt clk;
                               entrySpread := spread |}]> (activeSignals st);
         lastSignalTime := <[symbol data := stampedAt clk]> (lastSignalTime st);
         lastIndexPrice := cached data st |},
      [Entry (symbol data) (directionOf last index) last index spread])) \/
  (exists sig,
   rejected (symbol data) last index = false /\
   activeSignals st !! symbol data = Some sig /\
   processTickerData cfg clk data st =
     ({| activeSignals := delete (symbol data) (activeSignals st);
         lastSignalTime := lastSignalTime st;
         lastIndexPrice := cached data st |},
      [Exit (symbol data) (direction sig) last index spread (entrySpread sig)])).
Proof.
  cbv zeta. unfold processTickerData, hasSignal.
  destruct (rejected _ _ _) eqn:Hrej; [now left|].
  destruct (activeSignals st !! symbol data) as [sig|] eqn:Hs; simpl negb.
  - rewrite andb_false_l.
    destruct (JS.le _ _); [|now left]. right; right. now exists sig.
  - rewrite andb_true_l.
    destruct (JS.ge _ _) eqn:Hthr; [|now left]. rewrite andb_true_l.
    destruct (cooldownOk _ _ _); [|now left]. right; left. now repeat split.
Qed.

Lemma cached_other (data : Ticker) (st : State) (s : string) :
  s <> symbol data -> cached data st !! s = lastIndexPrice st !! s.
Proof.
  intros Hne. unfold cached, resolveIndexPrice.
  destruct (validIndex (indexPrice data)); cbn [fst]; [|reflexivity].
  now rewrite lookup_insert_ne by congruence.
Qed.

(** X1.  A tick touches its own instrument only: the signal, the cooldown record
    and the cached reference price of every other instrument are the same
    after it, and whatever it emits is about its own symbol. *)
Theorem tick_is_local (cfg : Config) (clk : Clock) (data : Ticker) (st : State)
    (s : string) :
  s <> symbol data ->
  activeSignals (fst (processTickerData cfg clk data st)) !! s
    = activeSignals st !! s /\
  lastSignalTime (fst (processTickerData cfg clk data st)) !! s
    = lastSignalTime st !! s /\
  lastIndexPrice (fst (processTickerData cfg clk data st)) !! s
    = lastIndexPrice st !! s /\
  Forall (fun e => eventSymbol e = symbol data)
         (snd (processTickerData cfg clk data st)).
Proof.
  intros Hne.
  destruct (process_outcomes cfg clk data st)
    as [H|[(_ & _ & _ & H)|(sig & _ & _ & H)]]; rewrite H;
    cbn [fst snd withCache activeSignals lastSignalTime lastIndexPrice].
  - rewrite cached_other by exact Hne. repeat split. constructor.
  - rewrite !lookup_insert_ne by congruence.
    rewrite cached_other by exact Hne. repeat split.
    constructor; [reflexivity|constructor].
  - rewrite lookup_delete_ne by congruence.
    rewrite cached_other by exact Hne. repeat split.
    constructor; [reflexivity|constructor].
Qed.

Lemma tick_is_local_witness :
  activeSignals (fst (processTickerData defaultConfig (atTime 1700000000000)
                        (tick "BTCUSDT" (JS.Num 102) (JS.Num 100))
                        (activeState "ETHUSDT"
                           {| direction := LONG; entryTime := 0;
                              entrySpread := JS.Num (-1) |}))) !! "ETHUSDT"
  = Some {| direction := LONG; entryTime := 0; entrySpread := JS.Num (-1) |}.
Proof.
  refine (eq_trans (proj1 (tick_is_local defaultConfig (atTime 1700000000000)
            (tick "BTCUSDT" (JS.Num 102) (JS.Num 100))
            (activeState "ETHUSDT"
               {| direction := LONG; entryTime := 0; entrySpread := JS.Num (-1) |})
            "ETHUSDT" _)) _).
  - vm_compute. discriminate.
  - reflexivity.
Defined.

(** *** The reference price in use is always positive *)

Lemma cached_valid (data : Ticker) (st : State) :
  cacheValid st ->
  forall (s : string) (x : JS.num),
    cached data st !! s = Some x -> validIndex x = true.
Proof.
  intros Hinv s x. unfold cached, resolveIndexPrice.
  destruct (validIndex (indexPrice data)) eqn:Hv; cbn [fst]; [|apply Hinv].
  destruct (decide (symbol data = s)) as [<-|Hne].
  - rewrite lookup_insert_eq. now intros [= <-].
  - rewrite lookup_insert_ne by exact Hne. apply Hinv.
Qed.

Lemma resolved_valid (data : Ticker) (st : State) :
  cacheValid st ->
  JS.isNaN (resolved data st) = false ->
  validIndex (resolved data st) = true.
Proof.
  intros Hinv. unfold resolved, resolveIndexPrice.
  destruct (validIndex (indexPrice data)) eqn:Hv; cbn [snd]; [now intros _|].
  destruct (lastIndexPrice st !! symbol data) as [x|] eqn:Hx; simpl.
  - intros _. now apply (Hinv _ _ Hx).
  - discriminate.
Qed.

Lemma rejected_false (sym : string) (last index : JS.num) :
  rejected sym last index = false ->
  sym <> "" /\ JS.isNaN last = false /\ JS.isNaN index = false.
Proof.
  unfold rejected. intros H.
  apply orb_false_iff in H as [H Hi]. apply orb_false_iff in H as [Hs Hl].
  repeat split; try assumption. now apply String.eqb_neq.
Qed.

Lemma tick_keeps_cache_valid (cfg : Config) (clk : Clock) (data : Ticker)
    (st : State) :
  cacheValid st ->
  cacheValid (fst (processTickerData cfg clk data st)) /\
  Forall (fun e => validIndex (eventIndex e) = true)
         (snd (processTickerData cfg clk data st)).
Proof.
  intros Hinv. split.
  - intros s x. rewrite process_cache. now apply cached_valid.
  - destruct (process_outcomes cfg clk data st)
      as [H|[(Hrej & _ & _ & H)|(sig & Hrej & _ & H)]]; rewrite H; cbn [snd].
    + constructor.
    + apply rejected_false in Hrej as (_ & _ & Hi).
      constructor; [|constructor]. now apply resolved_valid.
    + apply rejected_false in Hrej as (_ & _ & Hi).
      constructor; [|constructor]. now apply resolved_valid.
Qed.

(** X2.  Starting from a cache that holds only positive numbers (the empty one
    for instance), the cache holds only positive numbers after any sequence
    of ticks, and every Entry and Exit emitted on the way was computed with
    a positive reference price: [calcSpread] never meets a zero or negative
    reference there. *)
Theorem reference_always_positive (cfg : Config)
    (ticks : list (Clock * Ticker)) :
  forall st : State,
    cacheValid st ->
    cacheValid (fst (processAll cfg ticks st)) /\
    Forall (fun e => exists q, eventIndex e = JS.Num q /\ 0 < q)
           (snd (processAll cfg ticks st)).
Proof.
  induction ticks as [|[clk data] rest IH]; intros st Hinv.
  - split; [exact Hinv|constructor].
  - cbn [processAll].
    destruct (tick_keeps_cache_valid cfg clk data st Hinv) as [Hinv1 Hout1].
    destruct (processTickerData cfg clk data st) as [st1 out1].
    cbn [fst snd] in *.
    destruct (IH st1 Hinv1) as [Hinv2 Hout2].
    destruct (processAll cfg rest st1) as [st2 out2]. cbn [fst snd] in *.
    split; [exact Hinv2|]. apply Forall_app. split; [|exact Hout2].
    eapply Forall_impl; [exact Hout1|]. intros e He.
    now apply validIndex_positive.
Qed.

Lemma reference_always_positive_witness :
  Forall (fun e => exists q, eventIndex e = JS.Num q /\ 0 < q)
    (snd (processAll defaultConfig
            [(atTime 1700000000000, tick "BTCUSDT" (JS.Num 102) (JS.Num 100));
             (atTime 1700000010000, tick "BTCUSDT" (JS.Num 100) (JS.Num (-3)))]
            emptyState)).
Proof.
  apply (reference_always_positive defaultConfig
           [(atTime 1700000000000, tick "BTCUSDT" (JS.Num 102) (JS.Num 100));
            (atTime 1700000010000, tick "BTCUSDT" (JS.Num 100) (JS.Num (-3)))]
           emptyState).
  intros s x H. vm_compute in H. discriminate H.
Defined.

(** *** Signals kept by the state *)

Lemma tick_keeps_signals_sound (cfg : Config) (clk : Clock) (data : Ticker)
    (st : State) :
  signalsSound cfg st ->
  signalsSound cfg (fst (processTickerData cfg clk data st)).
Proof.
  intros Hinv s sig.
  destruct (process_outcomes cfg clk data st)
    as [H|[(Hrej & _ & Hthr & H)|(sig0 & _ & _ & H)]]; rewrite H;
    cbn [fst withCache activeSignals lastSignalTime].
  - apply Hinv.
  - destruct (decide (symbol data = s)) as [<-|Hne].
    + rewrite !lookup_insert_eq. intros [= <-]. cbn [entrySpread].
      apply rejected_false in Hrej as (Hsym & _ & _).
      repeat split; [exact Hsym|now eexists|exact Hthr].
    + rewrite !lookup_insert_ne by exact Hne. apply Hinv.
  - destruct (decide (symbol data = s)) as [<-|Hne].
    + rewrite lookup_delete_eq. discriminate.
    + rewrite lookup_delete_ne by exact Hne. apply Hinv.
Qed.

(** X3.  Whatever ticks arrive, every active signal belongs to an instrument
    with a non-empty symbol that has a cooldown record, and the entry
    spread it stores (the one an Exit reports) met the entry threshold:
    the property holds after a run as soon as it holds before, and it
    holds of the empty state. *)
Theorem signals_stay_sound (cfg : Config) (ticks : list (Clock * Ticker)) :
  forall st : State,
    signalsSound cfg st -> signalsSound cfg (fst (processAll cfg ticks st)).
Proof.
  induction ticks as [|[clk data] rest IH]; intros st Hinv; [exact Hinv|].
  cbn [processAll].
  pose proof (tick_keeps_signals_sound cfg clk data st Hinv) as H1.
  destruct (processTickerData cfg clk data st) as [st1 out1]. cbn [fst] in H1.
  specialize (IH st1 H1).
  destruct (processAll cfg rest st1) as [st2 out2]. exact IH.
Qed.

Lemma signals_stay_sound_witness :
  signalsSound defaultConfig
    (fst (processAll defaultConfig
            [(atTime 1700000000000, tick "BTCUSDT" (JS.Num 102) (JS.Num 100))]
            emptyState)).
Proof.
  apply (signals_stay_sound defaultConfig
           [(atTime 1700000000000, tick "BTCUSDT" (JS.Num 102) (JS.Num 100))]
           emptyState).
  intros s sig H. vm_compute in H. discriminate H.
Defined.

(** *** Entries and exits alternate *)

Lemma exitsFor_app (sym : string) (xs ys : list Event) :
  exitsFor sym (xs ++ ys) = (exitsFor sym xs + exitsFor sym ys)%nat.
Proof. unfold exitsFor. now rewrite List.filter_app, length_app. Qed.

Lemma tick_balance (cfg : Config) (clk : Clock) (data : Ticker) (st : State)
    (s : string) :
  (entriesFor s (snd (processTickerData cfg clk data st)) + activeCount s st
   = exitsFor s (snd (processTickerData cfg clk data st))
     + activeCount s (fst (processTickerData cfg clk data st)))%nat.
Proof.
  unfold activeCount, hasSignal.
  destruct (process_outcomes cfg clk data st)
    as [H|[(_ & Hidle & _ & H)|(sig & _ & Hact & H)]]; rewrite H;
    cbn [fst snd withCache activeSignals]; unfold entriesFor, exitsFor; cbn.
  - reflexivity.
  - destruct (String.eqb_spec (symbol data) s) as [<-|Hne]; cbn.
    + now rewrite lookup_insert_eq, Hidle.
    + now rewrite lookup_insert_ne by exact Hne.
  - destruct (String.eqb_spec (symbol data) s) as [<-|Hne]; cbn.
    + now rewrite lookup_delete_eq, Hact.
    + now rewrite lookup_delete_ne by exact Hne.
Qed.

(** X4.  Over any sequence of ticks and for every instrument, the Entry events
    emitted plus the signal active before equal the Exit events emitted
    plus the signal active after.  From the empty state the exits of an
    instrument therefore never outnumber its entries, the entries exceed
    them by at most one, and by exactly one when its signal is active at
    the end. *)
Theorem entries_balance_exits (cfg : Config) (s : string)
    (ticks : list (Clock * Ticker)) :
  forall st : State,
    (entriesFor s (snd (processAll cfg ticks st)) + activeCount s st
     = exitsFor s (snd (processAll cfg ticks st))
       + activeCount s (fst (processAll cfg ticks st)))%nat.
Proof.
  induction ticks as [|[clk data] rest IH]; intros st; [reflexivity|].
  cbn [processAll].
  pose proof (tick_balance cfg clk data st s) as H1.
  destruct (processTickerData cfg clk data st) as [st1 out1].
  cbn [fst snd] in H1. specialize (IH st1).
  destruct (processAll cfg rest st1) as [st2 out2]. cbn [fst snd] in *.
  rewrite entriesFor_app, exitsFor_app. lia.
Qed.

(** *** An Entry followed by its Exit *)



(** ** Further properties of the subscription plan *)

Section Batches.

Local Open Scope nat_scope.

Context {A : Type}.

Lemma ceilDiv_0 (b : nat) : 1 <= b -> ceilDiv 0 b = 0.
Proof. intros Hb. apply Nat.le_0_r. apply ceilDiv_spec; [exact Hb|lia]. Qed.

Lemma ceilDiv_step (n b : nat) :
  1 <= b -> 1 <= n -> ceilDiv n b = S (ceilDiv (n - b) b).
Proof.
  intros Hb Hn. apply Nat.le_antisymm.
  - apply ceilDiv_spec; [exact Hb|].
    pose proof (ceilDiv_covers (n - b) b Hb). lia.
  - pose proof (ceilDiv_covers n b Hb) as Hq.
    destruct (ceilDiv n b) as [|q] eqn:Eq; [lia|].
    apply le_n_S. apply ceilDiv_spec; [exact Hb|]. lia.
Qed.

Lemma batchesFrom_length (B : nat) (symbols : list A) :
  1 <= B ->
  forall fuel i, length symbols - i <= fuel ->
    length (batchesFrom fuel B symbols i) = ceilDiv (length symbols - i) B.
Proof.
  intros HB. induction fuel as [|fuel IH]; intros i Hfuel; cbn [batchesFrom].
  - replace (length symbols - i) with 0 by lia. now rewrite ceilDiv_0.
  - destruct (Nat.ltb_spec i (length symbols)) as [Hlt|Hge].
    + cbn [length]. rewrite IH by lia.
      rewrite (ceilDiv_step (length symbols - i) B) by lia.
      do 2 f_equal. lia.
    + replace (length symbols - i) with 0 by lia. now rewrite ceilDiv_0.
Qed.

Lemma batchesFrom_lookup (B : nat) (symbols : list A) :
  forall fuel i j (b : list A),
    batchesFrom fuel B symbols i !! j = Some b ->
    b = slice symbols (i + j * B) (i + j * B + B) /\ i + j * B < length symbols.
Proof.
  induction fuel as [|fuel IH]; intros i j b; cbn [batchesFrom]; [discriminate|].
  destruct (Nat.ltb_spec i (length symbols)) as [Hlt|Hge]; [|discriminate].
  destruct j as [|j]; cbn [lookup list_lookup].
  - intros [= <-]. replace (i + 0 * B) with i by lia. now split.
  - intros Hj. apply IH in Hj as [-> Hin].
    replace (i + S j * B) with (i + B + j * B) by lia. now split.
Qed.

(** X6.  With [BATCH_SIZE >= 1] the batch loop of a shard ends after
    [ceil (n / BATCH_SIZE)] rounds; its batches, one after the other, are
    the shard; none is empty and none exceeds [BATCH_SIZE]. *)
Theorem batches_split_the_shard (cfg : Config) (symbols : list A) :
  1 <= BATCH_SIZE cfg ->
  concat (batchesOf cfg symbols) = symbols /\
  length (batchesOf cfg symbols) = ceilDiv (length symbols) (BATCH_SIZE cfg) /\
  Forall (fun b => 1 <= length b <= BATCH_SIZE cfg) (batchesOf cfg symbols).
Proof.
  intros HB. split; [now apply batches_concat|]. split.
  - unfold batchesOf. rewrite batchesFrom_length by (try exact HB; lia).
    now rewrite Nat.sub_0_r.
  - apply Forall_lookup. intros j b Hj.
    apply batchesFrom_lookup in Hj as [-> Hin].
    rewrite length_slice. lia.
Qed.

(** X7.  Batch [j] of a shard is the slice starting at [j * BATCH_SIZE]; it is
    full (exactly [BATCH_SIZE] symbols) whenever [(j + 1) * BATCH_SIZE]
    does not pass the end of the shard, so only the last batch can be
    short. *)
Theorem batches_are_full_but_last (cfg : Config) (symbols : list A) (j : nat)
    (b : list A) :
  batchesOf cfg symbols !! j = Some b ->
  b = slice symbols (j * BATCH_SIZE cfg) (j * BATCH_SIZE cfg + BATCH_SIZE cfg) /\
  ((j + 1) * BATCH_SIZE cfg <= length symbols -> length b = BATCH_SIZE cfg) /\
  (j + 1 < length (batchesOf cfg symbols) -> length b = BATCH_SIZE cfg).
Proof.
  intros Hj. pose proof Hj as Hj0.
  apply batchesFrom_lookup in Hj as [-> Hin]. cbn [Nat.add] in *.
  split; [reflexivity|]. rewrite length_slice. split; [lia|].
  intros Hnext.
  destruct (batchesOf cfg symbols !! (j + 1)) as [b'|] eqn:Hb'.
  - apply batchesFrom_lookup in Hb' as [_ Hin']. lia.
  - apply lookup_ge_None in Hb'. lia.
Qed.

(** X8.  With [MAX_WS_CONNECTIONS >= 1] and [BATCH_SIZE >= 1] the shards,
    one after the other, are an initial segment of the universe: its order
    is kept, a universe without duplicates gives no instrument to two
    connections, and the plan is the whole universe exactly when
    [count * perConnection] reaches its size. *)
Theorem plan_is_initial_segment (cfg : Config) (symbols : list A) :
  1 <= MAX_WS_CONNECTIONS cfg -> 1 <= BATCH_SIZE cfg ->
  (exists rest, symbols = concat (initializeWebSockets cfg symbols) ++ rest) /\
  (NoDup symbols -> NoDup (concat (initializeWebSockets cfg symbols))) /\
  (concat (initializeWebSockets cfg symbols) = symbols <->
   length symbols
   <= actualConnections cfg symbols * symbolsPerConnection cfg symbols).
Proof.
  intros _ _. split; [|split].
  - exists (drop (actualConnections cfg symbols
                  * symbolsPerConnection cfg symbols) symbols).
    rewrite plan_prefix. symmetry. apply take_drop.
  - apply plan_NoDup.
  - rewrite plan_prefix. split.
    + intros H. apply (f_equal length) in H. rewrite length_take in H. lia.
    + apply take_ge.
Qed.

Lemma large_universe_count (cfg : Config) (symbols : list A) :
  1 <= BATCH_SIZE cfg ->
  (MAX_WS_CONNECTIONS cfg - 1) * BATCH_SIZE cfg < length symbols ->
  MAX_WS_CONNECTIONS cfg <= ceilDiv (length symbols) (BATCH_SIZE cfg).
Proof.
  intros HB Hlarge.
  destruct (Nat.le_gt_cases (MAX_WS_CONNECTIONS cfg)
              (ceilDiv (length symbols) (BATCH_SIZE cfg))) as [H|H];
    [exact H|].
  assert (Hc : ceilDiv (length symbols) (BATCH_SIZE cfg)
               <= MAX_WS_CONNECTIONS cfg - 1) by lia.
  apply ceilDiv_spec in Hc; [lia|exact HB].
Qed.

(** X9.  When the universe has more than [(MAX_WS_CONNECTIONS - 1) * BATCH_SIZE]
    instruments, [MAX_WS_CONNECTIONS] connections are opened and every
    instrument is handed to one of them, in order. *)
Theorem plan_complete_for_large_universe (cfg : Config) (symbols : list A) :
  1 <= MAX_WS_CONNECTIONS cfg -> 1 <= BATCH_SIZE cfg ->
  (MAX_WS_CONNECTIONS cfg - 1) * BATCH_SIZE cfg < length symbols ->
  length (initializeWebSockets cfg symbols) = MAX_WS_CONNECTIONS cfg /\
  concat (initializeWebSockets cfg symbols) = symbols.
Proof.
  intros HM HB Hlarge.
  pose proof (large_universe_count cfg symbols HB Hlarge) as Hle.
  split; [|now apply plan_covers].
  rewrite length_plan. unfold actualConnections. lia.
Qed.

End Batches.

Lemma batches_split_the_shard_witness :
  concat (batchesOf defaultConfig universe11) = universe11 /\
  length (batchesOf defaultConfig universe11) = ceilDiv 11 10 /\
  Forall (fun b => (1 <= length b <= 10)%nat) (batchesOf defaultConfig universe11).
Proof.
  apply (batches_split_the_shard defaultConfig universe11). vm_compute. lia.
Defined.

Lemma batches_are_full_but_last_witness :
  length (take 2 universe11) = 2%nat.
Proof.
  apply (proj1 (proj2 (batches_are_full_but_last smallBatchConfig universe11 0
                         (take 2 universe11) eq_refl))).
  vm_compute. lia.
Defined.

Lemma plan_is_initial_segment_witness :
  NoDup (concat (initializeWebSockets defaultConfig universe8)).
Proof.
  apply (proj1 (proj2 (plan_is_initial_segment defaultConfig universe8
                         ltac:(vm_compute; lia) ltac:(vm_compute; lia)))).
  apply (bool_decide_unpack (NoDup universe8)). vm_compute. exact I.
Defined.

Lemma plan_complete_for_large_universe_witness :
  length (initializeWebSockets smallBatchConfig universe11) = 5%nat /\
  concat (initializeWebSockets smallBatchConfig universe11) = universe11.
Proof.
  apply (plan_complete_for_large_universe smallBatchConfig universe11);
    vm_compute; lia.
Defined.

(** ** Topics, frames and start-up *)

Lemma topicOf_prefix (s : string) : String.prefix "tickers." (topicOf s) = true.
Proof. destruct s; reflexivity. Qed.

Lemma topicOf_inj (s s' : string) : topicOf s = topicOf s' -> s = s'.
Proof. unfold topicOf. cbn. intros H. now injection H. Qed.

Lemma NoDup_topics (symbols : list string) :
  NoDup symbols -> NoDup (map topicOf symbols).
Proof.
  induction 1 as [|s l Hnotin Hnd IH]; cbn [map]; constructor; [|exact IH].
  intros Hin. apply Hnotin. apply list_elem_of_In in Hin.
  apply in_map_iff in Hin as (s' & Heq & Hin').
  apply topicOf_inj in Heq. subst s'. now apply list_elem_of_In.
Qed.

Lemma subscribe_topics (cfg : Config) (symbols : list string) :
  subscribeToSymbols cfg symbols = map (map topicOf) (batchesOf cfg symbols).
Proof. reflexivity. Qed.

Lemma concat_nested {X Y : Type} (g : X -> list (list Y)) (l : list X) :
  concat (concat (map g l)) = concat (map (fun x => concat (g x)) l).
Proof.
  induction l as [|x l IH]; [reflexivity|].
  cbn [map concat]. now rewrite concat_app, IH.
Qed.

Lemma subscribe_concat (cfg : Config) (symbols : list string) :
  (1 <= BATCH_SIZE cfg)%nat ->
  concat (subscribeToSymbols cfg symbols) = map topicOf symbols.
Proof.
  intros HB. rewrite subscribe_topics, <- concat_map.
  now rewrite batches_concat.
Qed.

Lemma subscribe_bounded (cfg : Config) (symbols : list string) :
  Forall (fun frame => (length frame <= BATCH_SIZE cfg)%nat)
         (subscribeToSymbols cfg symbols).
Proof.
  rewrite subscribe_topics. apply Forall_map.
  eapply Forall_impl; [apply batches_bounded|].
  intros b Hb. cbn. now rewrite length_map.
Qed.

(** X10.  The subscribe frames of a shard name, in order, the topic
    [tickers.<symbol>] of each of its symbols, once per occurrence: with
    [BATCH_SIZE >= 1] the topics sent are the symbols of the shard under
    [topicOf], distinct symbols give distinct topics, and no frame carries
    more than [BATCH_SIZE] topics. *)
Theorem frames_name_each_symbol (cfg : Config) (symbols : list string) :
  (1 <= BATCH_SIZE cfg)%nat ->
  concat (subscribeToSymbols cfg symbols) = map topicOf symbols /\
  (NoDup symbols -> NoDup (concat (subscribeToSymbols cfg symbols))) /\
  Forall (fun frame => (length frame <= BATCH_SIZE cfg)%nat)
         (subscribeToSymbols cfg symbols).
Proof.
  intros HB. pose proof (subscribe_concat cfg symbols HB) as Hcat.
  split; [exact Hcat|]. split.
  - intros Hnd. rewrite Hcat. now apply NoDup_topics.
  - apply subscribe_bounded.
Qed.

Lemma frames_name_each_symbol_witness :
  concat (subscribeToSymbols smallBatchConfig universe8) = map topicOf universe8.
Proof.
  apply (proj1 (frames_name_each_symbol smallBatchConfig universe8
                  ltac:(vm_compute; lia))).
Defined.

Lemma wire_topics_prefixed (cfg : Config) (symbols : list string) :
  Forall (Forall (fun t => String.prefix "tickers." t = true))
         (wireBatches cfg symbols).
Proof.
  unfold wireBatches. apply Forall_concat, Forall_map, Forall_forall.
  intros shard _. rewrite subscribe_topics. apply Forall_map, Forall_forall.
  intros b _. cbn. apply Forall_map, Forall_forall.
  intros s _. apply topicOf_prefix.
Qed.

(** X11.  A ticker frame on any topic the plan subscribed to is handed to
    [processTickerData] as it is: the prefix test of the handler accepts
    every topic that [subscribeToSymbols] sends.  A frame that cannot be
    parsed, has no topic, has no data or a topic without the prefix
    changes nothing and emits nothing. *)
Theorem subscribed_frames_reach_processor (cfg : Config) (clk : Clock)
    (st : State) :
  (forall (symbols : list string) (frame : list string) (t : string)
          (data : Ticker),
     In frame (wireBatches cfg symbols) -> In t frame ->
     handleWebSocketMessage cfg clk (Parsed (Some t) (Some data)) st
     = processTickerData cfg clk data st) /\
  (forall (topic : option string) (data : option Ticker),
     topic = None \/ data = None \/
     (exists t, topic = Some t /\ String.prefix "tickers." t = false) ->
     handleWebSocketMessage cfg clk (Parsed topic data) st = (st, [])) /\
  handleWebSocketMessage cfg clk Unparsable st = (st, []).
Proof.
  split; [|split].
  - intros symbols frame t data Hframe Ht.
    pose proof (wire_topics_prefixed cfg symbols) as Hall.
    rewrite List.Forall_forall in Hall. specialize (Hall frame Hframe).
    rewrite List.Forall_forall in Hall. specialize (Hall t Ht).
    cbn [handleWebSocketMessage]. now rewrite Hall.
  - intros topic data [->|[->|(t & -> & Hp)]]; cbn [handleWebSocketMessage].
    + reflexivity.
    + now destruct topic.
    + destruct data; [now rewrite Hp|reflexivity].
  - reflexivity.
Qed.

Lemma subscribed_frames_reach_processor_witness :
  handleWebSocketMessage defaultConfig (atTime 1700000000000)
    (Parsed (Some "tickers.ETHUSDT")
            (Some (tick "ETHUSDT" (JS.Num 102) (JS.Num 100)))) emptyState
  = processTickerData defaultConfig (atTime 1700000000000)
      (tick "ETHUSDT" (JS.Num 102) (JS.Num 100)) emptyState.
Proof.
  apply (proj1 (subscribed_frames_reach_processor defaultConfig
                  (atTime 1700000000000) emptyState)
           universe8 ["tickers.BTCUSDT"; "tickers.ETHUSDT"]).
  - left. reflexivity.
  - right. left. reflexivity.
Defined.

(** *** Universe discovery *)

(** X12.  A listing with a return code other than 0 is an error carrying the
    message of the exchange, never a universe.  With return code 0 the
    universe is, in listing order, the symbols of exactly the instruments
    whose status is Trading and whose quote coin is USDT; distinct symbols
    in the listing give a universe without duplicates. *)
Theorem universe_is_active_usdt (res : Listing) :
  (retCode res <> 0%Z ->
   fetchActiveSymbols res = inl (String.append "API Error: " (retMsg res))) /\
  (retCode res = 0%Z ->
   exists symbols : list string,
     fetchActiveSymbols res = inr symbols /\
     (forall s : string,
        In s symbols <->
        exists inst, In inst (instruments res) /\
                     instStatus inst = "Trading" /\ quoteCoin inst = "USDT" /\
                     instSymbol inst = s) /\
     sublist symbols (map instSymbol (instruments res)) /\
     (NoDup (map instSymbol (instruments res)) -> NoDup symbols)).
Proof.
  unfold fetchActiveSymbols. split.
  - intros Hne. apply Z.eqb_neq in Hne. now rewrite Hne.
  - intros Hz. rewrite Hz. cbn [Z.eqb negb]. eexists. split; [reflexivity|].
    assert (Hsub : sublist (map instSymbol
                              (List.filter isActiveUsdt (instruments res)))
                           (map instSymbol (instruments res))).
    { apply (fmap_sublist instSymbol). induction (instruments res) as [|x l IH];
        cbn [List.filter]; [constructor|].
      destruct (isActiveUsdt x); now constructor. }
    split; [|split; [exact Hsub|]].
    + intros s. rewrite in_map_iff. split.
      * intros (inst & Hs & Hin). apply filter_In in Hin as [Hin Hok].
        unfold isActiveUsdt in Hok. apply andb_true_iff in Hok as [H1 H2].
        apply String.eqb_eq in H1, H2. now exists inst.
      * intros (inst & Hin & H1 & H2 & Hs). exists inst. split; [exact Hs|].
        apply filter_In. split; [exact Hin|]. unfold isActiveUsdt.
        rewrite H1, H2. reflexivity.
    + intros Hnd. eapply sublist_NoDup; eassumption.
Qed.

Lemma universe_is_active_usdt_witness :
  exists symbols : list string,
    fetchActiveSymbols
      {| retCode := 0; retMsg := "OK";
         instruments :=
           [ {| instStatus := "Trading"; quoteCoin := "USDT";
                instSymbol := "BTCUSDT" |};
             {| instStatus := "Trading"; quoteCoin := "USDC";
                instSymbol := "BTCPERP" |};
             {| instStatus := "Closed"; quoteCoin := "USDT";
                instSymbol := "LUNAUSDT" |} ] |} = inr symbols /\
    In "BTCUSDT" symbols /\ ~ In "BTCPERP" symbols.
Proof.
  destruct (proj2 (universe_is_active_usdt
              {| retCode := 0; retMsg := "OK";
                 instruments :=
                   [ {| instStatus := "Trading"; quoteCoin := "USDT";
                        instSymbol := "BTCUSDT" |};
                     {| instStatus := "Trading"; quoteCoin := "USDC";
                        instSymbol := "BTCPERP" |};
                     {| instStatus := "Closed"; quoteCoin := "USDT";
                        instSymbol := "LUNAUSDT" |} ] |}) eq_refl)
    as (symbols & Heq & _).
  exists symbols. split; [exact Heq|].
  injection Heq as <-. split.
  - left. reflexivity.
  - intros [H|[]]. discriminate H.
Defined.

(** *** Start-up *)

(** X13.  When discovery fails, start-up ends with its error and sends nothing.
    When it returns a universe of more than
    [(MAX_WS_CONNECTIONS - 1) * BATCH_SIZE] symbols, [MAX_WS_CONNECTIONS]
    connections are planned and the topics of their frames, taken in
    order, are the topic of every symbol of the universe, each sent once
    per occurrence, in frames of at most [BATCH_SIZE] topics. *)
Theorem startup_subscribes_universe (cfg : Config) (res : Listing) :
  (forall err : string,
     fetchActiveSymbols res = inl err -> main cfg res = inl err) /\
  (forall symbols : list string,
     fetchActiveSymbols res = inr symbols ->
     (1 <= MAX_WS_CONNECTIONS cfg)%nat -> (1 <= BATCH_SIZE cfg)%nat ->
     ((MAX_WS_CONNECTIONS cfg - 1) * BATCH_SIZE cfg < length symbols)%nat ->
     exists frames : list (list (list string)),
       main cfg res = inr frames /\
       length frames = MAX_WS_CONNECTIONS cfg /\
       concat (concat frames) = map topicOf symbols /\
       Forall (Forall (fun frame => (length frame <= BATCH_SIZE cfg)%nat)) frames).
Proof.
  unfold main. split.
  - intros err ->. reflexivity.
  - intros symbols -> HM HB Hlarge. eexists. split; [reflexivity|].
    pose proof (large_universe_count cfg symbols HB Hlarge) as Hle.
    split; [|split].
    + rewrite length_map, length_plan. unfold actualConnections. lia.
    + rewrite concat_nested.
      rewrite (map_ext _ (map topicOf)) by (intros shard; now apply subscribe_concat).
      rewrite <- concat_map. now rewrite plan_covers.
    + apply Forall_map, Forall_forall. intros shard _. apply subscribe_bounded.
Qed.

Lemma startup_subscribes_universe_witness :
  let res := {| retCode := 0; retMsg := "OK";
                instruments :=
                  map (fun s => {| instStatus := "Trading"; quoteCoin := "USDT";
                                   instSymbol := s |}) universe11 |} in
  exists frames : list (list (list string)),
    main smallBatchConfig res = inr frames /\
    length frames = 5%nat /\
    concat (concat frames) = map topicOf universe11 /\
    Forall (Forall (fun frame => (length frame <= 2)%nat)) frames.
Proof.
  cbv zeta.
  apply (proj2 (startup_subscribes_universe smallBatchConfig
                  {| retCode := 0; retMsg := "OK";
                     instruments :=
                       map (fun s => {| instStatus := "Trading";
                                        quoteCoin := "USDT";
                                        instSymbol := s |}) universe11 |})
           universe11 eq_refl); vm_compute; lia.
Defined.

(** ** The two variants of the tick processor *)

Lemma valid_not_zero (x : JS.num) : validIndex x = true -> JS.not x = false.
Proof.
  intros H. apply validIndex_positive in H as (q & -> & Hq). simpl.
  destruct (Qeq_bool q 0) eqn:E; [|reflexivity].
  apply Qeq_bool_iff in E. lra.
Qed.

Lemma not_false_isNaN (x : JS.num) : JS.not x = false -> JS.isNaN x = false.
Proof. destruct x; [discriminate|reflexivity]. Qed.

(** X14.  On a tick with a non-empty symbol, a traded price that is a non-zero
    number and a positive incoming reference price, and with the cooldown
    of the instrument elapsed, the current processor and the blocking one
    decide alike: started from states holding signals for the same
    instruments with the same directions, they emit the same Entry or Exit
    (the blocking one without the entry spread) and end in such states
    again.  The variants differ only through the cooldown, the cached
    reference price and the treatment of zero prices and empty symbols. *)
Theorem variants_decide_alike (cfg : Config) (clk : Clock) (now : Z)
    (data : Ticker) (st : State) (old : Blocking.State) :
  sameSignals st old ->
  symbol data <> "" ->
  JS.not (lastPrice data) = false ->
  validIndex (indexPrice data) = true ->
  cooldownOk cfg (checkedAt clk)
             (lastSentOf (symbol data) (lastSignalTime st)) = true ->
  map toBlocking (snd (processTickerData cfg clk data st))
    = snd (Blocking.processTickerData cfg now data old) /\
  sameSignals (fst (processTickerData cfg clk data st))
              (fst (Blocking.processTickerData cfg now data old)).
Proof.
  intros Hsame Hsym Hlast Hvalid Hcool.
  assert (Hres : resolved data st = indexPrice data).
  { unfold resolved. now rewrite resolve_valid. }
  assert (Hrej : rejected (symbol data) (lastPrice data) (resolved data st) = false).
  { unfold rejected. rewrite Hres.
    apply String.eqb_neq in Hsym. rewrite Hsym.
    rewrite (not_false_isNaN _ Hlast).
    now rewrite (not_false_isNaN _ (valid_not_zero _ Hvalid)). }
  pose proof (Hsame (symbol data)) as Hhere.
  unfold Blocking.processTickerData.
  rewrite Hlast, (valid_not_zero _ Hvalid). cbn [orb].
  change (Blocking.calculateSpread (lastPrice data) (indexPrice data))
    with (calcSpread (lastPrice data) (indexPrice data)).
  change (Blocking.getDirection (lastPrice data) (indexPrice data))
    with (directionOf (lastPrice data) (indexPrice data)).
  destruct (activeSignals st !! symbol data) as [sig|] eqn:Hs;
    destruct (Blocking.activeSignals old !! symbol data) as [sig'|] eqn:Hs';
    cbn in Hhere; try discriminate Hhere.
  - injection Hhere as Hdir.
    destruct (JS.le (JS.abs (calcSpread (lastPrice data) (indexPrice data)))
                    (SPREAD_EXIT_THRESHOLD cfg)) eqn:Hthr.
    + rewrite (process_exit cfg clk data st sig Hrej Hs)
        by (rewrite Hres; exact Hthr).
      cbn [fst snd map toBlocking]. rewrite Hres, Hdir. split; [reflexivity|].
      intros s. cbn [activeSignals Blocking.activeSignals].
      destruct (decide (symbol data = s)) as [<-|Hne].
      * now rewrite !lookup_delete_eq.
      * rewrite !lookup_delete_ne by exact Hne. apply Hsame.
    + rewrite (process_active_quiet cfg clk data st sig Hrej Hs)
        by (rewrite Hres; exact Hthr).
      cbn [fst snd map]. split; [reflexivity|]. exact Hsame.
  - destruct (JS.ge (JS.abs (calcSpread (lastPrice data) (indexPrice data)))
                    (SPREAD_ENTRY_THRESHOLD cfg)) eqn:Hthr.
    + rewrite (process_entry cfg clk data st Hrej Hs)
        by (try rewrite Hres; assumption).
      cbn [fst snd map toBlocking]. rewrite Hres. split; [reflexivity|].
      intros s. cbn [activeSignals Blocking.activeSignals].
      destruct (decide (symbol data = s)) as [<-|Hne].
      * now rewrite !lookup_insert_eq.
      * rewrite !lookup_insert_ne by exact Hne. apply Hsame.
    + rewrite (process_idle_quiet cfg clk data st Hrej Hs)
        by (rewrite Hres, Hthr; reflexivity).
      cbn [fst snd map]. split; [reflexivity|]. exact Hsame.
Qed.

Lemma variants_decide_alike_witness :
  map toBlocking
    (snd (processTickerData defaultConfig (atTime 1700000000000)
            (tick "BTCUSDT" (JS.Num 102) (JS.Num 100)) emptyState))
  = snd (Blocking.processTickerData defaultConfig 1700000000000
           (tick "BTCUSDT" (JS.Num 102) (JS.Num 100))
           {| Blocking.activeSignals := ∅; Blocking.prices := ∅ |}).
Proof.
  apply (variants_decide_alike defaultConfig (atTime 1700000000000)
           1700000000000 (tick "BTCUSDT" (JS.Num 102) (JS.Num 100)) emptyState
           {| Blocking.activeSignals := ∅; Blocking.prices := ∅ |}).
  - intros s. vm_compute. reflexivity.
  - vm_compute. discriminate.
  - reflexivity.
  - reflexivity.
  - reflexivity.
Defined.

(** ** Direction and sign with infinite prices *)

Lemma wide_lt_Fin (a b : Q) : Wide.lt (Wide.Fin a) (Wide.Fin b) = true <-> a < b.
Proof.
  simpl. rewrite negb_true_iff. split.
  - intros H. destruct (Qlt_le_dec a b) as [Hlt|Hle]; [exact Hlt|].
    apply Qle_bool_iff in Hle. congruence.
  - intros H. destruct (Qle_bool b a) eqn:Hb; [|reflexivity].
    apply Qle_bool_iff in Hb. lra.
Qed.

Lemma wide_scaled_positive (positive : bool) (q : Q) :
  0 < q -> Wide.scaled positive q = if positive then Wide.PosInf else Wide.NegInf.
Proof.
  intros Hq. unfold Wide.scaled.
  destruct (q ?= 0) eqn:E; [| |reflexivity].
  - apply Qeq_alt in E. lra.
  - apply Qlt_alt in E. lra.
Qed.

(** On the numbers of [JS.num] the two models compute the same spread and
    the same direction. *)
Lemma wide_agrees_on_finite (l i : JS.num) :
  Wide.calcSpread (Wide.ofJS l) (Wide.ofJS i) = Wide.ofJS (calcSpread l i) /\
  Wide.directionOf (Wide.ofJS l) (Wide.ofJS i) = directionOf l i /\
  Wide.validIndex (Wide.ofJS i) = validIndex i.
Proof.
  split; [|split].
  - destruct l as [|a]; destruct i as [|c]; try reflexivity;
      unfold Wide.calcSpread, calcSpread; simpl;
      destruct (Qeq_bool a 0); try reflexivity.
    destruct (Qeq_bool c 0); reflexivity.
  - destruct l; destruct i; reflexivity.
  - destruct i; reflexivity.
Qed.

(** C9, as stated, fails: the reference price [Infinity] (what [parseFloat]
    returns for ["1e999"]) is a number above zero and passes line 94; with
    traded price 100 the direction is LONG, while the spread is
    [((100 - Infinity) / Infinity) * 100 = NaN], which is not below 0. *)
Lemma infinite_reference_breaks_sign :
  Wide.validIndex Wide.PosInf = true /\
  Wide.gt Wide.PosInf (Wide.Fin 0) = true /\
  Wide.isNaN (Wide.Fin 100) = false /\
  Wide.directionOf (Wide.Fin 100) Wide.PosInf = LONG /\
  Wide.calcSpread (Wide.Fin 100) Wide.PosInf = Wide.NaN /\
  Wide.lt (Wide.calcSpread (Wide.Fin 100) Wide.PosInf) (Wide.Fin 0) = false.
Proof. repeat split; vm_compute; reflexivity. Qed.

(** C9 (amended).  For a tick whose reference price is a finite number
    above zero and whose traded price is a non-zero number or an infinity
    (every positive price is one): the direction is LONG exactly when
    traded < reference and SHORT otherwise, equality included, and the
    spread is below zero exactly when the direction is LONG.  Finite
    arithmetic is exact in the number model. *)
Theorem direction_sign_finite_reference (l : Wide.num) (i : Q) :
  Wide.not l = false -> 0 < i ->
  (Wide.directionOf l (Wide.Fin i) = LONG <-> Wide.lt l (Wide.Fin i) = true) /\
  (Wide.directionOf l (Wide.Fin i) = SHORT <-> Wide.lt l (Wide.Fin i) = false) /\
  (forall a : Q, l = Wide.Fin a ->
     (Wide.directionOf l (Wide.Fin i) = LONG <-> a < i) /\
     (Wide.directionOf l (Wide.Fin i) = SHORT <-> i <= a)) /\
  (Wide.lt (Wide.calcSpread l (Wide.Fin i)) (Wide.Fin 0) = true <->
   Wide.directionOf l (Wide.Fin i) = LONG).
Proof.
  intros Hl Hi.
  assert (Hdir : Wide.directionOf l (Wide.Fin i) = LONG
                 <-> Wide.lt l (Wide.Fin i) = true).
  { unfold Wide.directionOf. destruct (Wide.lt l (Wide.Fin i));
      split; congruence. }
  assert (Hshort : Wide.directionOf l (Wide.Fin i) = SHORT
                   <-> Wide.lt l (Wide.Fin i) = false).
  { unfold Wide.directionOf. destruct (Wide.lt l (Wide.Fin i));
      split; congruence. }
  split; [exact Hdir|]. split; [exact Hshort|]. split.
  - intros a ->. rewrite Hdir, Hshort. split; [apply wide_lt_Fin|].
    rewrite <- Bool.not_true_iff_false, wide_lt_Fin. split; intros H; lra.
  - rewrite Hdir.
    assert (Hi0 : Qeq_bool i 0 = false).
    { destruct (Qeq_bool i 0) eqn:E; [|reflexivity].
      apply Qeq_bool_iff in E. lra. }
    unfold Wide.calcSpread. rewrite Hl.
    cbn [Wide.not Wide.seq orb]. rewrite Hi0. cbn [orb].
    destruct l as [| | |a].
    + discriminate Hl.
    + cbn [Wide.sub Wide.div]. rewrite (wide_scaled_positive false i Hi).
      cbn [Wide.mul]. rewrite (wide_scaled_positive false 100) by reflexivity.
      split; reflexivity.
    + cbn [Wide.sub Wide.div]. rewrite (wide_scaled_positive true i Hi).
      cbn [Wide.mul]. rewrite (wide_scaled_positive true 100) by reflexivity.
      split; intros H; discriminate H.
    + cbn [Wide.sub Wide.div]. rewrite Hi0. cbn [Wide.mul].
      rewrite !wide_lt_Fin.
      assert (Hk : 0 < / i) by (apply Qinv_lt_0_compat; exact Hi).
      unfold Qdiv. set (k := / i) in *. clearbody k.
      split; intros H; nra.
Qed.

Lemma direction_sign_finite_reference_witness :
  Wide.lt (Wide.calcSpread (Wide.Fin 99) (Wide.Fin 100)) (Wide.Fin 0) = true <->
  Wide.directionOf (Wide.Fin 99) (Wide.Fin 100) = LONG.
Proof.
  apply (direction_sign_finite_reference (Wide.Fin 99) 100); reflexivity.
Defined.
